(** * hive: coroutine based hive client and its blocking wrapper

    A shallow embedding of [hive/__init__.py]: the asyncio client
    [AioHive] (constructor, [execute], [fetch], [iter] with its nested
    [to_frame] coroutine and [closing] generator) and the blocking wrapper
    [SyncedHive].

    The hiveserver2 cursor (package aiohs2), the XML parser and pandas are
    libraries the module calls; they appear here as a scripted server, a
    parse function and a table type with the dtype inference of the
    DataFrame constructor. *)

From Stdlib Require Import List String Ascii ZArith Arith Bool Lia.
From Stdlib Require PrimFloat Uint63.
Import ListNotations.
Open Scope string_scope.
Open Scope list_scope.

(** ** Python values and truthiness *)

(** The values the constructor arguments and the table cells range over. *)
Inductive pyval : Type :=
| PNone
| PBool (b : bool)
| PInt (z : Z)
| PStr (s : string).

(** [bool(v)]: what [if v:] and [a and b] test. *)
Definition truthy (v : pyval) : bool :=
  match v with
  | PNone => false
  | PBool b => b
  | PInt z => negb (Z.eqb z 0)
  | PStr s => negb (String.eqb s "")
  end.

Definition is_None (v : pyval) : bool :=
  match v with PNone => true | _ => false end.

(** [a and b] on values: [a] when [a] is falsy, else [b]. *)
Definition py_and (a b : pyval) : pyval := if truthy a then b else a.

(** ** [str.split(sep)] for a non-empty separator

    Scanning left to right; [skip] counts the characters of a separator
    occurrence that are still to be dropped, [acc] is the piece being read. *)
Fixpoint split_go (sep : string) (skip : nat) (acc : string) (s : string)
  : list string :=
  match s with
  | EmptyString => [acc]
  | String c s' =>
      match skip with
      | S k => split_go sep k acc s'
      | O =>
          if String.prefix sep s
          then acc :: split_go sep (String.length sep - 1) "" s'
          else split_go sep 0 (acc ++ String c "")%string s'
      end
  end.

Definition split (s sep : string) : list string := split_go sep 0 "" s.

(** [uri.split('://')[-1].split(':')[0]] *)
Definition host_of_uri (uri : string) : string :=
  hd "" (split (last (split uri "://") "") ":").

(** ** Exceptions *)

Inductive exn : Type :=
| TypeError (msg : string)
| ValueError (msg : string)
| AttributeError (msg : string)
| ParseError (msg : string)          (* raised by ET.parse *)
| TransportError (code : nat).       (* raised by a cursor operation *)

(** ** Cells *)

(** What a cell of a result row or of a table holds: NULL ([None]), a
    boolean, an integer, a float (NaN among them) or a string. *)
Inductive cell : Type :=
| CNone
| CBool (b : bool)
| CInt (z : Z)
| CFloat (f : PrimFloat.float)
| CStr (s : string).

Definition row : Type := list cell.

(** [float(m)] for an integer [0 <= m <= 2**63], rounded to the nearest
    float as the hardware does. *)
Definition float_of_magnitude (m : Z) : PrimFloat.float :=
  if (m <? 9223372036854775808)%Z
  then PrimFloat.of_uint63 (Uint63.of_Z m)
  else PrimFloat.mul (PrimFloat.of_uint63 (Uint63.of_Z (m / 2))) PrimFloat.two.

(** The float64 an int64 becomes in a float column. *)
Definition float_of_int (z : Z) : PrimFloat.float :=
  if (z <? 0)%Z then PrimFloat.opp (float_of_magnitude (- z))
  else float_of_magnitude z.

(** ** The dtype inference of [pd.DataFrame]

    The constructor infers the dtype of each column from the cells of that
    column in the rows it is given, and from nothing else.  Integers that
    share a column with NULLs or with floats become float64 and the NULLs
    NaN.  A column of integers alone stays int64, and a column that holds
    a string or a boolean beside other values, or NULLs alone, or an
    integer outside int64, is an object column whose cells stay as they
    are. *)

Definition is_int64 (z : Z) : bool :=
  ((-9223372036854775808 <=? z) && (z <? 9223372036854775808))%Z.

Definition is_none (c : cell) : bool :=
  match c with CNone => true | _ => false end.
Definition is_int (c : cell) : bool :=
  match c with CInt _ => true | _ => false end.
Definition is_float (c : cell) : bool :=
  match c with CFloat _ => true | _ => false end.

(** A cell a float64 column can hold. *)
Definition numeric (c : cell) : bool :=
  match c with
  | CNone => true
  | CInt z => is_int64 z
  | CFloat _ => true
  | CBool _ | CStr _ => false
  end.

(** Whether the cells [col] of a column make it a float64 column. *)
Definition float_column (col : list cell) : bool :=
  forallb numeric col &&
  (existsb is_float col || (existsb is_int col && existsb is_none col)).

(** The cell as a float64 column holds it. *)
Definition to_float (c : cell) : cell :=
  match c with
  | CNone => CFloat PrimFloat.nan
  | CInt z => CFloat (float_of_int z)
  | CFloat _ | CBool _ | CStr _ => c
  end.

(** The cells at position [j] of the rows. *)
Definition column (j : nat) (rs : list row) : list cell :=
  flat_map (fun r => match nth_error r j with
                     | Some c => [c]
                     | None => []
                     end) rs.

(** The row [r] as the table of the rows [rs] holds it. *)
Definition convert_row (rs : list row) (r : row) : row :=
  map (fun jc => if float_column (column (fst jc) rs)
                 then to_float (snd jc) else snd jc)
      (combine (seq 0 (List.length r)) r).

(** The cells of a table built from the rows [rs]: each cell as the dtype
    of its column, inferred from [rs], holds it. *)
Definition infer_dtypes (rs : list row) : list row :=
  map (convert_row rs) rs.

Arguments infer_dtypes : simpl never.

(** ** Tables (pandas.DataFrame, as far as the module uses it) *)

Record DataFrame : Type := mkFrame {
  columns : list string;     (* column labels *)
  index : list nat;          (* row labels *)
  values : list row          (* one entry per row *)
}.

(** A page as a fetch returns it: absent ([None]) or a list of rows. *)
Definition page : Type := option (list row).

Definition page_rows (p : page) : list row :=
  match p with Some rs => rs | None => [] end.

(** Truthiness of a page: [None] and the empty list are falsy. *)
Definition page_truthy (p : page) : bool :=
  match p with Some (_ :: _) => true | _ => false end.

(** First argument of [pd.DataFrame(data, columns=...)]. *)
Inductive frame_data : Type :=
| FNone
| FRows (rs : list row)
| FFrame (df : DataFrame).

(** [page or other] *)
Definition page_or (p : page) (other : frame_data) : frame_data :=
  if page_truthy p then FRows (page_rows p) else other.

Fixpoint find_label (c : string) (cs : list string) : option nat :=
  match cs with
  | [] => None
  | c' :: cs' =>
      if String.eqb c c' then Some 0
      else option_map S (find_label c cs')
  end.

(** Selecting the cells of [r] (labelled [from]) under the labels [to];
    a label [r] does not have gives NaN. *)
Definition reindex_row (from to : list string) (r : row) : row :=
  map (fun c => match find_label c from with
                | Some i => nth i r CNone
                | None => CFloat PrimFloat.nan
                end) to.

(** [pd.DataFrame(data, columns=cols)] for rows of one cell per column, as
    a cursor delivers them: no data gives the zero-row table; rows get the
    default index 0..n-1 and their cells the dtypes inferred from these
    rows; a table keeps its index and cells and is reindexed to [cols]. *)
Definition pd_DataFrame (data : frame_data) (cols : list string) : DataFrame :=
  match data with
  | FNone => mkFrame cols [] []
  | FRows rs => mkFrame cols (seq 0 (List.length rs)) (infer_dtypes rs)
  | FFrame df =>
      mkFrame cols (index df) (map (reindex_row (columns df) cols) (values df))
  end.

(** [len(data)] *)
Definition len (data : DataFrame) : nat := List.length (values data).

(** [data.index += k] *)
Definition index_iadd (data : DataFrame) (k : nat) : DataFrame :=
  mkFrame (columns data) (map (fun i => i + k) (index data)) (values data).

(** [data[:0].copy()] *)
Definition slice0_copy (data : DataFrame) : DataFrame :=
  mkFrame (columns data) (firstn 0 (index data)) (firstn 0 (values data)).

(** [data.empty]: some axis has length zero. *)
Definition df_empty (data : DataFrame) : bool :=
  Nat.eqb (List.length (index data)) 0 || Nat.eqb (List.length (columns data)) 0.

(** ** Effects

    What a call does to the world is recorded in a trace.  A cursor
    operation is a coroutine: calling it only creates the coroutine, and it
    acts on the server when it is driven ([yield from], or the event loop).
    [EvClose] is a driven close; [EvCloseCoro] is a call [cur.close()] whose
    coroutine is created and dropped. *)

Inductive event : Type :=
| EvClient (host : pyval) (port : Z)   (* aiohs2.Client(host=..., port=...) *)
| EvCursor                             (* yield from cli.cursor() *)
| EvExecute (hql : string)             (* yield from cur.execute(hql) *)
| EvGetSchema                          (* yield from cur.getSchema() *)
| EvFetch (maxRows : nat)              (* a fetch coroutine driven *)
| EvClose                              (* yield from cur.close() *)
| EvCloseCoro.                         (* cur.close(), never driven *)

(** The namespace [class local] of [AioHive.iter]. *)
Record local : Type := mkLocal {
  offset : nat;
  empty : option DataFrame
}.

Record world : Type := mkWorld {
  trace : list event;        (* events so far, oldest first *)
  loc : local;               (* the [local] of the running [iter] *)
  out : list DataFrame       (* tables handed to the caller of a generator *)
}.

Definition world0 : world := mkWorld [] (mkLocal 0 None) [].

(** Computations that may raise and act on the world. *)
Definition M (A : Type) : Type := world -> (exn + A) * world.

Definition ret {A} (a : A) : M A := fun w => (inr a, w).

Definition raise {A} (e : exn) : M A := fun w => (inl e, w).

Definition bind {A B} (m : M A) (k : A -> M B) : M B :=
  fun w => match m w with
           | (inl e, w') => (inl e, w')
           | (inr a, w') => k a w'
           end.

Notation "x <- m ;; k" := (bind m (fun x => k))
  (at level 61, m at next level, right associativity).
Notation "m ;;; k" := (bind m (fun _ => k))
  (at level 61, right associativity).

Definition emit (e : event) : M unit :=
  fun w => (inr tt, mkWorld (trace w ++ [e]) (loc w) (out w)).

Definition get_local : M local := fun w => (inr (loc w), w).

Definition set_local (l : local) : M unit :=
  fun w => (inr tt, mkWorld (trace w) l (out w)).

(** [yield data] of a generator whose caller collects the tables. *)
Definition yield_ (data : DataFrame) : M unit :=
  fun w => (inr tt, mkWorld (trace w) (loc w) (out w ++ [data])).

(** The outcome of a library call that may raise. *)
Definition lift {A} (r : exn + A) : M A :=
  match r with inl e => raise e | inr a => ret a end.

(** [try: body finally: fin].  An exception of [fin] replaces the pending
    result or exception of [body]. *)
Definition try_finally {A} (body : M A) (fin : M unit) : M A :=
  fun w => match body w with
           | (r, w1) =>
               match fin w1 with
               | (inl e, w2) => (inl e, w2)
               | (inr _, w2) => (r, w2)
               end
           end.

(** [try: body except: handler; raise] *)
Definition try_except_raise {A} (body : M A) (handler : M unit) : M A :=
  fun w => match body w with
           | (inl e, w1) =>
               match handler w1 with
               | (inl e', w2) => (inl e', w2)
               | (inr _, w2) => (inl e, w2)
               end
           | (inr a, w1) => (inr a, w1)
           end.

(** ** The hiveserver2 cursor, as a scripted server *)

(** An entry of the schema: the dictionary [nfo], by its key
    [columnName]. *)
Record nfo : Type := mkNfo { columnName : string }.

(** Modelled from the spec: the cursor capability of the aiohs2 package
    (open, execute, get-schema, fetch-page, close), every operation of
    which suspends and may fail.  A server is given by the outcome of each
    operation; [srv_pages maxRows] lists the outcomes of the successive
    page fetches done with that page size. *)
Record Server : Type := mkServer {
  srv_cursor : exn + unit;
  srv_execute : string -> exn + unit;
  srv_schema : exn + list nfo;
  srv_pages : nat -> list (exn + page);
  srv_close : exn + unit
}.

Record Cursor : Type := mkCursor { server : Server }.

Module Cur.

(** [yield from cli.cursor()] *)
Definition cursor (srv : Server) : M Cursor :=
  emit EvCursor ;;; lift (srv_cursor srv) ;;; ret (mkCursor srv).

(** [yield from cur.execute(hql)] *)
Definition execute (cur : Cursor) (hql : string) : M unit :=
  emit (EvExecute hql) ;;; lift (srv_execute (server cur) hql).

(** [yield from cur.getSchema()] *)
Definition getSchema (cur : Cursor) : M (list nfo) :=
  emit EvGetSchema ;;; lift (srv_schema (server cur)).

(** A fetch coroutine that will have the outcome [o], when driven. *)
Definition fetch_co (maxRows : nat) (o : exn + page) : M page :=
  emit (EvFetch maxRows) ;;; lift o.

(** [cur.fetch(maxRows=n)]: the first page; a server with no page left
    answers with an absent page. *)
Definition fetch (cur : Cursor) (maxRows : nat) : M page :=
  fetch_co maxRows (hd (inr None) (srv_pages (server cur) maxRows)).

(** [cur.iter(maxRows=n)]: the fetch coroutines of the successive pages,
    none of them driven yet. *)
Definition iter (cur : Cursor) (maxRows : nat) : list (M page) :=
  map (fetch_co maxRows) (srv_pages (server cur) maxRows).

(** [yield from cur.close()] *)
Definition close (cur : Cursor) : M unit :=
  emit EvClose ;;; lift (srv_close (server cur)).

(** [cur.close()] as a statement: the coroutine is created and dropped,
    the server is not reached and nothing can be raised. *)
Definition close_undriven (cur : Cursor) : M unit :=
  emit EvCloseCoro.

End Cur.

(** ** What surrounds the client: configuration files and the network *)

(** A [property] element of a configuration document, by the text of its
    [name] and [value] children ([findtext] gives [None] for a missing
    child and the empty string for a child without text). *)
Record property : Type := mkProperty {
  findtext_name : option string;
  findtext_value : option string
}.

Record Env : Type := mkEnv {
  (* ET.parse(config), then cfg.iter('property') in document order;
     [None] when the resource cannot be read or parsed *)
  ET_parse : pyval -> option (list property);
  (* the server an aiohs2 client for (host, port) talks to *)
  net : pyval -> Z -> Server
}.

(** [aiohs2.Client]: a handle; no connection is made by creating it. *)
Record Client : Type := mkClient {
  client_host : pyval;
  client_port : Z;
  client_server : Server
}.

Definition aiohs2_Client (env : Env) (host : pyval) (port : Z) : M Client :=
  emit (EvClient host port) ;;; ret (mkClient host port (net env host port)).

(** ** class AioHive *)

Module AioHive.

Record t : Type := mk { cli : Client }.

Definition metastore_key : string := "hive.metastore.uris".

(** The [for res in cfg.iter('property'): ... break / else: raise] loop
    of the constructor; it gives the new value of [host]. *)
Fixpoint scan_properties (props : list property) : M pyval :=
  match props with
  | [] => raise (ValueError "could not find 'hive.metastore.uris' in config")
  | res :: rest =>
      match findtext_name res with
      | Some n =>
          if String.eqb n metastore_key then
            match findtext_value res with
            | Some uri => ret (PStr (host_of_uri uri))
            | None => raise (AttributeError "'NoneType' object has no attribute 'split'")
            end
          else scan_properties rest
      | None => scan_properties rest
      end
  end.

(** [AioHive.__init__(self, host=None, config=None, port=10000)] *)
Definition __init__ (env : Env) (host config : pyval) (port : Z) : M t :=
  if (is_None host && is_None config) || truthy (py_and config host) then
    raise (TypeError "Either host or config argument has to be supplied")
  else
    host' <- (if truthy config then
                match ET_parse env config with
                | Some cfg => scan_properties cfg
                | None => raise (ParseError "cannot parse the configuration")
                end
              else ret host) ;;
    c <- aiohs2_Client env host' port ;;
    ret (mk c).

(** [AioHive.execute(self, request)] *)
Definition execute (self : t) (request : string) : M unit :=
  cur <- Cur.cursor (client_server (cli self)) ;;
  try_finally
    (Cur.execute cur request)
    (Cur.close cur).

(** [pd.Index([nfo['columnName'] for nfo in schema])] *)
Definition pd_Index (schema : list nfo) : list string :=
  map columnName schema.

(** [AioHive.fetch(self, hql, chunk_size=10000)] *)
Definition fetch (self : t) (hql : string) (chunk_size : nat) : M DataFrame :=
  cur <- Cur.cursor (client_server (cli self)) ;;
  try_finally
    (Cur.execute cur hql ;;;
     schema <- Cur.getSchema cur ;;
     let columns := pd_Index schema in
     p <- Cur.fetch cur chunk_size ;;
     ret (pd_DataFrame (page_or p FNone) columns))
    (Cur.close cur).

(** The coroutine [to_frame(chunk_co)] nested in [iter]; [columns] and
    [local] are the variables of the enclosing call. *)
Definition to_frame (columns : list string) (chunk_co : M page) : M DataFrame :=
  p <- chunk_co ;;
  l <- get_local ;;
  let data :=
    pd_DataFrame
      (page_or p (match empty l with Some e => FFrame e | None => FNone end))
      columns in
  let data := index_iadd data (offset l) in
  set_local (mkLocal (offset l + len data) (empty l)) ;;;
  l <- get_local ;;
  (match empty l with
   | None => set_local (mkLocal (offset l) (Some (slice0_copy data)))
   | Some _ => ret tt
   end) ;;;
  ret data.

(** The generator [closing()] nested in [iter], as the state of its
    frame: not started, suspended at the [yield] inside the [try], or
    finished. *)
Inductive gen_status : Type := Created | Suspended | Finished.

Record closing : Type := mkClosing {
  status : gen_status;
  chunks : list (M page);      (* what is left of [chunks] *)
  gen_columns : list string;
  gen_cur : Cursor
}.

Definition finished (g : closing) : closing :=
  mkClosing Finished (chunks g) (gen_columns g) (gen_cur g).

(** [next(g)]: run the frame up to the next [yield]; [None] stands for
    StopIteration.  Leaving the [for] loop runs the [finally] block,
    which calls [cur.close()] and drops the coroutine. *)
Definition next (g : closing) : M (option (M DataFrame) * closing) :=
  match status g with
  | Finished => ret (None, g)
  | Created | Suspended =>
      match chunks g with
      | chunk :: rest =>
          ret (Some (to_frame (gen_columns g) chunk),
               mkClosing Suspended rest (gen_columns g) (gen_cur g))
      | [] =>
          Cur.close_undriven (gen_cur g) ;;;
          ret (None, finished g)
      end
  end.

(** [g.close()], also what finalisation does to a generator that is
    dropped: GeneratorExit is raised at the [yield] where the frame is
    suspended, so the [finally] block runs; a frame that was never
    started, or is finished, runs nothing. *)
Definition close (g : closing) : M closing :=
  match status g with
  | Suspended => Cur.close_undriven (gen_cur g) ;;; ret (finished g)
  | Created | Finished => ret (finished g)
  end.

(** [AioHive.iter(self, hql, chunk_size=10000)] *)
Definition iter (self : t) (hql : string) (chunk_size : nat) : M closing :=
  cur <- Cur.cursor (client_server (cli self)) ;;
  try_except_raise
    (Cur.execute cur hql ;;;
     schema <- Cur.getSchema cur ;;
     let columns := pd_Index schema in
     let chunks := Cur.iter cur chunk_size in
     set_local (mkLocal 0 None) ;;;
     ret (mkClosing Created chunks columns cur))
    (Cur.close_undriven cur).

End AioHive.

(** ** Consumers of the generator that [AioHive.iter] returns *)

(** A [for chunk in g:] loop that takes at most [k] items, drives each
    coroutine it gets and runs [body] on the table.  The result tells
    whether the generator was exhausted.  An exception leaves the loop; the
    generator is dropped with the loop's frame and thereby finalised. *)
Fixpoint for_chunks (k : nat) (body : DataFrame -> M unit) (g : AioHive.closing)
  : M (bool * AioHive.closing) :=
  match k with
  | O => ret (false, g)
  | S k' =>
      r <- AioHive.next g ;;
      match r with
      | (None, g') => ret (true, g')
      | (Some chunk, g') =>
          try_except_raise
            (data <- chunk ;; body data)
            (AioHive.close g' ;;; ret tt) ;;;
          for_chunks k' body g'
      end
  end.

(** Taking at most [k] items and then dropping the generator. *)
Definition consume (k : nat) (body : DataFrame -> M unit) (g : AioHive.closing)
  : M bool :=
  r <- for_chunks k body g ;;
  AioHive.close (snd r) ;;;
  ret (fst r).

(** Taking every item: one more [next] than there are chunks left. *)
Definition consume_all (body : DataFrame -> M unit) (g : AioHive.closing)
  : M bool :=
  consume (S (List.length (AioHive.chunks g))) body g.

(** A loop body that hands the table on when [keep] holds of it. *)
Definition yield_if (keep : DataFrame -> bool) (data : DataFrame) : M unit :=
  if keep data then yield_ data else ret tt.

(** The whole of a chunked read by a caller that drives every coroutine in
    order and keeps every table, after at most [k] items. *)
Definition read_chunks (self : AioHive.t) (hql : string) (chunk_size k : nat)
  : M bool :=
  g <- AioHive.iter self hql chunk_size ;;
  consume k yield_ g.

Definition read_all_chunks (self : AioHive.t) (hql : string) (chunk_size : nat)
  : M bool :=
  g <- AioHive.iter self hql chunk_size ;;
  consume_all yield_ g.

(** ** class SyncedHive *)

Module SyncedHive.

(** The wrapper around a client.  Its event loop is what drives a
    coroutine to its end; [run] below is that driving. *)
Record t : Type := mk { hive : AioHive.t }.

(** [self.loop.run_until_complete(coro)] *)
Definition run {A} (self : t) (coro : M A) : M A := coro.

Definition execute (self : t) (request : string) : M unit :=
  run self (AioHive.execute (hive self) request).

Definition fetch (self : t) (hql : string) (chunk_size : nat) : M DataFrame :=
  run self (AioHive.fetch (hive self) hql chunk_size).

(** The body of the loop of [SyncedHive.iter]. *)
Definition iter_body (data : DataFrame) : M unit :=
  if negb (df_empty data) then yield_ data else ret tt.

(** [SyncedHive.iter(self, hql, chunk_size)], run by a caller that takes
    every table: the tables it yields are appended to [out]. *)
Definition iter (self : t) (hql : string) (chunk_size : nat) : M bool :=
  g <- run self (AioHive.iter (hive self) hql chunk_size) ;;
  consume_all iter_body g.

End SyncedHive.

(** ** A server that pages a result set *)

(** Cutting [rs] into pages of at most [n] rows; a last, empty page tells
    that the result set is exhausted.  [fuel] bounds the number of pages
    that hold rows. *)
Fixpoint paginate_go (fuel n : nat) (rs : list row) : list page :=
  match fuel with
  | O => [Some []]
  | S fuel' =>
      match rs with
      | [] => [Some []]
      | _ :: _ => Some (firstn n rs) :: paginate_go fuel' n (skipn n rs)
      end
  end.

Definition paginate (n : nat) (rs : list row) : list page :=
  paginate_go (List.length rs) n rs.

(** Modelled from the spec: the behaviour of the hiveserver2 cursor of the
    aiohs2 package on a query whose full result is [rows] under [schema].
    Every operation succeeds, and a fetch gives a page, a raw batch of rows
    bounded by the chunk size of the caller; the page that ends the stream
    is empty. *)
Definition paged_server (schema : list nfo) (rows : list row) : Server :=
  mkServer (inr tt) (fun _ => inr tt) (inr schema)
           (fun n => map inr (paginate n rows)) (inr tt).

(** The client of a given server, and the world a call starts in. *)
Definition client_of (srv : Server) : AioHive.t :=
  AioHive.mk (mkClient (PStr "localhost") 10000 srv).

(** The full materialization of a result set: one table of all its rows. *)
Definition materialize (schema : list nfo) (rows : list row) : DataFrame :=
  pd_DataFrame (FRows rows) (AioHive.pd_Index schema).

(** ** Reading traces *)

Definition is_cursor (e : event) : bool :=
  match e with EvCursor => true | _ => false end.
Definition is_schema (e : event) : bool :=
  match e with EvGetSchema => true | _ => false end.
Definition is_fetch (e : event) : bool :=
  match e with EvFetch _ => true | _ => false end.
Definition is_close (e : event) : bool :=
  match e with EvClose => true | _ => false end.
Definition is_close_coro (e : event) : bool :=
  match e with EvCloseCoro => true | _ => false end.

Definition count (p : event -> bool) (tr : list event) : nat :=
  List.length (filter p tr).

(** ** Values the statements below are read at *)

Definition type_error : exn :=
  TypeError "Either host or config argument has to be supplied".

Definition missing_uri_error : exn :=
  ValueError "could not find 'hive.metastore.uris' in config".

Definition cell_row (n : Z) : row := [CInt n; CStr "x"].

Definition schema_ab : list nfo := [mkNfo "a"; mkNfo "b"].

(** Five rows under the schema (a, b). *)
Definition server5 : Server :=
  paged_server schema_ab
    [cell_row 1; cell_row 2; cell_row 3; cell_row 4; cell_row 5].

(** Four rows of one integer column, the last two NULL. *)
Definition rows_nulls : list row := [[CInt 1]; [CInt 2]; [CNone]; [CNone]].

Definition server_nulls : Server := paged_server [mkNfo "a"] rows_nulls.

(** Two configuration files: [hive-site.xml] names the metastore,
    [core-site.xml] does not; nothing else can be read. *)
Definition env_site : Env :=
  mkEnv
    (fun config =>
       match config with
       | PStr s =>
           if String.eqb s "hive-site.xml" then
             Some [mkProperty (Some "fs.defaultFS") (Some "hdfs://nn:8020");
                   mkProperty (Some "hive.metastore.uris")
                              (Some "thrift://meta:9083")]
           else if String.eqb s "core-site.xml" then
             Some [mkProperty (Some "fs.defaultFS") (Some "hdfs://nn:8020")]
           else None
       | _ => None
       end)
    (fun _ _ => server5).

(** A server on which [execute] and [close] both fail. *)
Definition server_failing : Server :=
  mkServer (inr tt) (fun _ => inl (TransportError 1)) (inr schema_ab)
           (fun _ => []) (inl (TransportError 2)).

(** What the calls of [AioHive.fetch] between opening and closing the
    cursor amount to: the first exception among execute, getSchema and
    fetch, or the table of the first page. *)
Definition fetch_calls (srv : Server) (hql : string) (chunk_size : nat)
  : exn + DataFrame :=
  match srv_execute srv hql with
  | inl e => inl e
  | inr _ =>
      match srv_schema srv with
      | inl e => inl e
      | inr schema =>
          match hd (inr None) (srv_pages srv chunk_size) with
          | inl e => inl e
          | inr p => inr (pd_DataFrame (page_or p FNone) (AioHive.pd_Index schema))
          end
      end
  end.

(** The events of those calls. *)
Definition fetch_events (srv : Server) (hql : string) (chunk_size : nat)
  : list event :=
  EvExecute hql ::
  match srv_execute srv hql with
  | inl _ => []
  | inr _ =>
      EvGetSchema ::
      match srv_schema srv with
      | inl _ => []
      | inr _ => [EvFetch chunk_size]
      end
  end.

(** An exception of the close replaces what was pending. *)
Definition after_close {A} (srv : Server) (pending : exn + A) : exn + A :=
  match srv_close srv with
  | inl e => inl e
  | inr _ => pending
  end.

(** What one call does between the states [w] and [w']: the cursor is
    requested once; when that fails the exception [e] of it comes out and
    nothing is closed; otherwise there is one driven close, it is the last
    event, and the result is [pending], what the calls in between gave,
    unless the close raises, whose exception then replaces it. *)
Definition closes_once {A} (srv : Server) (pending : exn + A)
    (w : world) (res : (exn + A) * world) : Prop :=
  exists evs,
    trace (snd res) = trace w ++ evs /\
    count is_cursor evs = 1 /\
    match srv_cursor srv with
    | inl e => fst res = inl e /\ count is_close evs = 0
    | inr _ =>
        count is_close evs = 1 /\
        last evs EvCursor = EvClose /\
        fst res = match srv_close srv with
                  | inl e2 => inl e2
                  | inr _ => pending
                  end
    end.

(** ** The tables of a chunked read *)

(** The template of [local] is unset, or the zero-row table of the
    columns. *)
Definition local_ok (cols : list string) (l : local) : Prop :=
  empty l = None \/ empty l = Some (mkFrame cols [] []).

(** The table of the page [p] when [off] rows came before it. *)
Definition chunk_frame (cols : list string) (off : nat) (p : page) : DataFrame :=
  mkFrame cols (seq off (List.length (page_rows p))) (infer_dtypes (page_rows p)).

(** The tables of the pages [ps], in order, the first at offset [off]. *)
Fixpoint tables_from (cols : list string) (off : nat) (ps : list page)
  : list DataFrame :=
  match ps with
  | [] => []
  | p :: rest =>
      chunk_frame cols off p
        :: tables_from cols (off + List.length (page_rows p)) rest
  end.

(** The pages fetched before the first fetch that raises. *)
Fixpoint ok_prefix (os : list (exn + page)) : list page :=
  match os with
  | inr p :: rest => p :: ok_prefix rest
  | _ => []
  end.

(** All the rows of a list of pages. *)
Definition rows_of (ps : list page) : list row := List.concat (map page_rows ps).

(** The type of the values of a column that holds no NULL. *)
Inductive kind : Type := KBool | KInt | KFloat | KStr.

Definition has_kind (k : kind) (c : cell) : bool :=
  match k, c with
  | KBool, CBool _ => true
  | KInt, CInt _ => true
  | KFloat, CFloat _ => true
  | KStr, CStr _ => true
  | _, _ => false
  end.

(** The row has one cell per column, each of the kind of its column: no
    cell is NULL and no column mixes types. *)
Definition typed (kinds : list kind) (r : row) : Prop :=
  Forall2 (fun k c => has_kind k c = true) kinds r.

(** Two cells that are the same up to the conversion of a float column:
    an integer against its float, [None] against NaN. *)
Definition same_up_to_dtype (x y : cell) : Prop :=
  x = y \/ to_float x = y \/ x = to_float y.

(** All the rows of a list of pages, each as the table of its page holds
    it. *)
Definition cells_of (ps : list page) : list row :=
  List.concat (map (fun p => infer_dtypes (page_rows p)) ps).

(** A server that answers every call and serves the pages [ps]. *)
Definition page_server (schema : list nfo) (ps : list page) : Server :=
  mkServer (inr tt) (fun _ => inr tt) (inr schema)
           (fun _ => map inr ps) (inr tt).

(** The exception of the first fetch that raises. *)
Fixpoint first_error (os : list (exn + page)) : option exn :=
  match os with
  | [] => None
  | inl e :: _ => Some e
  | inr _ :: rest => first_error rest
  end.

(** Whether the frame of the generator has been entered once a consumer
    that started from the state [st] has taken up to [k] items. *)
Definition entered (k : nat) (st : AioHive.gen_status) : bool :=
  match k, st with
  | O, AioHive.Created => false
  | _, _ => true
  end.

(** A server whose second page fetch raises. *)
Definition server_fetch_error : Server :=
  mkServer (inr tt) (fun _ => inr tt) (inr schema_ab)
           (fun _ => [inr (Some [cell_row 1; cell_row 2]);
                      inl (TransportError 7);
                      inr (Some [cell_row 3])])
           (inr tt).

(** A server with an empty page and an absent page among the others. *)
Definition server_gaps : Server :=
  page_server schema_ab
    [Some []; Some [cell_row 1; cell_row 2]; None; Some [cell_row 3]; Some []].

(** ** Tactics *)

(** Unfolding the cursor calls and the monad. *)
Ltac run_calls :=
  unfold AioHive.execute, AioHive.fetch, AioHive.iter, try_finally,
    try_except_raise, Cur.cursor, Cur.execute, Cur.getSchema, Cur.fetch,
    Cur.fetch_co, Cur.close, Cur.close_undriven, bind, emit, lift, raise,
    ret, set_local; simpl.

(** ** Characters of a string *)

(** Whether the character [c] occurs in [s]. *)
Fixpoint has_char (c : ascii) (s : string) : bool :=
  match s with
  | EmptyString => false
  | String a s' => Ascii.eqb a c || has_char c s'
  end.

(** ** Any consumer of the generator *)

(** What a caller may do with the generator of [iter], step by step: ask
    for the next item, and drive the coroutine it gets or leave it, or
    close the generator. *)
Inductive gen_op : Type :=
| OpNext (drive : bool)
| OpClose.

(** [try: m except Exception: pass] *)
Definition suppress (m : M unit) : M unit :=
  fun w => match m w with
           | (inl _, w') => (inr tt, w')
           | (inr _, w') => (inr tt, w')
           end.

(** A caller that goes through [ops]; it keeps the tables it gets and
    carries on after a coroutine that raises. *)
Fixpoint run_ops (ops : list gen_op) (g : AioHive.closing) : M AioHive.closing :=
  match ops with
  | [] => ret g
  | OpClose :: rest =>
      g' <- AioHive.close g ;;
      run_ops rest g'
  | OpNext drive :: rest =>
      r <- AioHive.next g ;;
      match r with
      | (Some chunk, g') =>
          (if drive then suppress (data <- chunk ;; yield_ data) else ret tt) ;;;
          run_ops rest g'
      | (None, g') => run_ops rest g'
      end
  end.

(** ** A caller that holds on to coroutines *)

(** What a caller may do, step by step: take the next item of the
    generator and hold it, drive one of the coroutines it holds (the
    [i]-th, which it then lets go), or close the generator. *)
Inductive use : Type :=
| UseNext
| UseDrive (i : nat)
| UseClose.

Fixpoint drop_nth {A} (i : nat) (l : list A) : list A :=
  match l, i with
  | [], _ => []
  | _ :: rest, O => rest
  | a :: rest, S i' => a :: drop_nth i' rest
  end.

(** A caller that goes through [us], holding [held]; it keeps the tables
    it gets and carries on after a coroutine that raises. *)
Fixpoint run_uses (us : list use) (g : AioHive.closing)
    (held : list (M DataFrame)) : M (AioHive.closing * list (M DataFrame)) :=
  match us with
  | [] => ret (g, held)
  | UseNext :: rest =>
      r <- AioHive.next g ;;
      match r with
      | (Some chunk, g') => run_uses rest g' (held ++ [chunk])
      | (None, g') => run_uses rest g' held
      end
  | UseDrive i :: rest =>
      match nth_error held i with
      | Some chunk =>
          suppress (data <- chunk ;; yield_ data) ;;;
          run_uses rest g (drop_nth i held)
      | None => run_uses rest g held
      end
  | UseClose :: rest =>
      g' <- AioHive.close g ;;
      run_uses rest g' held
  end.

(** The coroutines of a generator for the columns [cols] and the page
    size [n]: [to_frame] on a page fetch. *)
Definition of_generator (cols : list string) (n : nat) (c : M DataFrame) : Prop :=
  exists o, c = AioHive.to_frame cols (Cur.fetch_co n o).

(** The number of times the caller sets out to drive a coroutine. *)
Fixpoint count_use_drives (us : list use) : nat :=
  match us with
  | [] => 0
  | UseDrive _ :: rest => S (count_use_drives rest)
  | _ :: rest => count_use_drives rest
  end.

(** A configuration file whose first metastore property has no value. *)
Definition env_novalue : Env :=
  mkEnv
    (fun config =>
       match config with
       | PStr _ =>
           Some [mkProperty (Some "fs.defaultFS") (Some "hdfs://nn:8020");
                 mkProperty (Some "hive.metastore.uris") None;
                 mkProperty (Some "hive.metastore.uris")
                            (Some "thrift://meta:9083")]
       | _ => None
       end)
    (fun _ _ => server5).

(** The pages of the fetches that did not raise. *)
Fixpoint successes (os : list (exn + page)) : list page :=
  match os with
  | [] => []
  | inl _ :: rest => successes rest
  | inr p :: rest => p :: successes rest
  end.

(** A configuration file whose metastore property has an empty value. *)
Definition env_emptyvalue : Env :=
  mkEnv
    (fun config =>
       match config with
       | PStr _ =>
           Some [mkProperty (Some "fs.defaultFS") (Some "hdfs://nn:8020");
                 mkProperty (Some "hive.metastore.uris") (Some "")]
       | _ => None
       end)
    (fun _ _ => server5).

(** * The constructor *)

Section Constructor.

Variable env : Env.

Lemma scan_properties_absent (cfg : list property) (w : world) :
  Forall (fun res => findtext_name res <> Some AioHive.metastore_key) cfg ->
  AioHive.scan_properties cfg w = (inl missing_uri_error, w).
Proof.
  induction 1 as [| res rest Hres _ IH]; simpl.
  - reflexivity.
  - destruct (findtext_name res) as [n |] eqn:En; [| exact IH].
    destruct (String.eqb n AioHive.metastore_key) eqn:E; [| exact IH].
    apply String.eqb_eq in E. subst n. now elim Hres.
Qed.

Lemma scan_properties_found (pre post : list property) (uri : string)
    (w : world) :
  Forall (fun res => findtext_name res <> Some AioHive.metastore_key) pre ->
  AioHive.scan_properties
    (pre ++ mkProperty (Some AioHive.metastore_key) (Some uri) :: post) w
  = (inr (PStr (host_of_uri uri)), w).
Proof.
  induction 1 as [| res rest Hres _ IH]; simpl.
  - reflexivity.
  - destruct (findtext_name res) as [n |] eqn:En; [| exact IH].
    destruct (String.eqb n AioHive.metastore_key) eqn:E; [| exact IH].
    apply String.eqb_eq in E. subst n. now elim Hres.
Qed.

(** The arguments check raises exactly when both arguments are [None] or
    both are truthy. *)
Lemma init_check (host config : pyval) :
  (is_None host && is_None config) || truthy (py_and config host) = true <->
  (host = PNone /\ config = PNone) \/ (truthy host = true /\ truthy config = true).
Proof.
  unfold py_and. split.
  - intros H. apply orb_true_iff in H. destruct H as [H | H].
    + apply andb_true_iff in H. destruct H as [Hh Hc].
      destruct host; try discriminate. destruct config; try discriminate.
      now left.
    + destruct (truthy config) eqn:Ec.
      * now right.
      * congruence.
  - intros [[-> ->] | [Hh Hc]].
    + reflexivity.
    + rewrite Hc, Hh. apply orb_true_r.
Qed.

Lemma init_check_falsy_host (host config : pyval) :
  truthy host = false -> truthy config = true ->
  (is_None host && is_None config) || truthy (py_and config host) = false.
Proof.
  intros Hh Hc.
  destruct ((is_None host && is_None config) || truthy (py_and config host))
    eqn:E; [| reflexivity].
  apply init_check in E. destruct E as [[_ ->] | [Hh' _]]; simpl in *; congruence.
Qed.

(** When the arguments check fires, the constructor raises its TypeError
    and does nothing else. *)
Lemma init_check_raises (host config : pyval) (port : Z) (w : world) :
  (is_None host && is_None config) || truthy (py_and config host) = true ->
  AioHive.__init__ env host config port w = (inl type_error, w).
Proof. intros E. unfold AioHive.__init__. now rewrite E. Qed.

(** C6, as amended: a constructor call with [host] and [config] both
    truthy, or both [None], raises the TypeError of the arguments check
    and leaves the world as it was: no client is created and nothing is
    sent. *)
Theorem init_rejects_both_truthy_or_both_None
    (host config : pyval) (port : Z) (w : world) :
  (truthy host = true /\ truthy config = true) \/
  (host = PNone /\ config = PNone) ->
  AioHive.__init__ env host config port w = (inl type_error, w).
Proof.
  intros H. apply init_check_raises, init_check. tauto.
Qed.

(** C7: when [config] names a configuration resource that parses and has
    no property called hive.metastore.uris, the constructor raises a
    configuration error (the ValueError of the property lookup, or the
    TypeError of the arguments check when a truthy [host] came with it)
    and leaves the world as it was: no client is created, no connection
    is attempted. *)
Theorem init_config_without_metastore_uri
    (host config : pyval) (port : Z) (w : world) (cfg : list property) :
  truthy config = true ->
  ET_parse env config = Some cfg ->
  Forall (fun res => findtext_name res <> Some AioHive.metastore_key) cfg ->
  AioHive.__init__ env host config port w =
    (inl (if truthy host then type_error else missing_uri_error), w).
Proof.
  intros Hc Hp Hcfg.
  destruct (truthy host) eqn:Hh.
  - apply init_check_raises, init_check. now right.
  - unfold AioHive.__init__.
    rewrite (init_check_falsy_host host config Hh Hc), Hc, Hp.
    unfold bind. now rewrite (scan_properties_absent cfg w Hcfg).
Qed.

(** C9: with a truthy [config] and a falsy [host] (the empty string, 0,
    False; [None] too), the arguments check does not raise, whatever the
    resource holds no TypeError comes out of the constructor, and when
    the resource has the metastore property the client is created for the
    host taken from its value, not for [host].  The same call with a
    truthy [host] is rejected. *)
Theorem init_falsy_host_uses_config
    (host config : pyval) (port : Z) (w : world) :
  truthy host = false ->
  truthy config = true ->
  (forall msg, fst (AioHive.__init__ env host config port w) <> inl (TypeError msg)) /\
  (forall pre post uri,
      ET_parse env config =
        Some (pre ++ mkProperty (Some AioHive.metastore_key) (Some uri) :: post) ->
      Forall (fun res => findtext_name res <> Some AioHive.metastore_key) pre ->
      AioHive.__init__ env host config port w =
        (inr (AioHive.mk (mkClient (PStr (host_of_uri uri)) port
                                   (net env (PStr (host_of_uri uri)) port))),
         mkWorld (trace w ++ [EvClient (PStr (host_of_uri uri)) port])
                 (loc w) (out w))) /\
  (forall host', truthy host' = true ->
      AioHive.__init__ env host' config port w = (inl type_error, w)).
Proof.
  intros Hh Hc. split; [| split].
  - intros msg. unfold AioHive.__init__.
    rewrite (init_check_falsy_host host config Hh Hc), Hc.
    destruct (ET_parse env config) as [cfg |]; unfold bind.
    + assert (Hscan : forall v, fst (AioHive.scan_properties cfg v) <> inl (TypeError msg)).
      { induction cfg as [| res rest IH]; intros v; simpl; [discriminate |].
        destruct (findtext_name res) as [n |]; [| apply IH].
        destruct (String.eqb n AioHive.metastore_key); [| apply IH].
        destruct (findtext_value res); simpl; discriminate. }
      specialize (Hscan w).
      destruct (AioHive.scan_properties cfg w) as [[e | h] w1]; simpl in *.
      * intros E. apply Hscan. congruence.
      * discriminate.
    + simpl. discriminate.
  - intros pre post uri Hp Hpre. unfold AioHive.__init__.
    rewrite (init_check_falsy_host host config Hh Hc), Hc, Hp.
    unfold bind. rewrite (scan_properties_found pre post uri w Hpre).
    reflexivity.
  - intros host' Hh'. apply init_check_raises, init_check. now right.
Qed.

End Constructor.

(** C6, as stated, fails: [host] and [config] are both supplied (neither
    is [None]), [host] being the empty string, and the constructor returns
    a client, made for the host of the configuration file. *)
Lemma init_accepts_empty_host_with_config :
  PStr "" <> PNone /\ PStr "hive-site.xml" <> PNone /\
  AioHive.__init__ env_site (PStr "") (PStr "hive-site.xml") 10000 world0 =
    (inr (AioHive.mk (mkClient (PStr "meta") 10000 server5)),
     mkWorld [EvClient (PStr "meta") 10000] (mkLocal 0 None) []).
Proof.
  split; [discriminate | split; [discriminate | reflexivity]].
Qed.

Lemma init_rejects_witness :
  AioHive.__init__ env_site (PStr "hive1") (PStr "hive-site.xml") 10000 world0
    = (inl type_error, world0) /\
  AioHive.__init__ env_site PNone PNone 10000 world0 = (inl type_error, world0).
Proof.
  split.
  - apply (init_rejects_both_truthy_or_both_None env_site). left. split; reflexivity.
  - apply (init_rejects_both_truthy_or_both_None env_site). right. split; reflexivity.
Defined.

Lemma init_config_without_metastore_uri_witness :
  AioHive.__init__ env_site PNone (PStr "core-site.xml") 10000 world0
    = (inl missing_uri_error, world0).
Proof.
  apply (init_config_without_metastore_uri env_site PNone (PStr "core-site.xml")
           10000 world0
           [mkProperty (Some "fs.defaultFS") (Some "hdfs://nn:8020")]).
  - reflexivity.
  - reflexivity.
  - repeat constructor. simpl. discriminate.
Defined.

Lemma init_falsy_host_uses_config_witness :
  AioHive.__init__ env_site (PInt 0) (PStr "hive-site.xml") 10000 world0 =
    (inr (AioHive.mk (mkClient (PStr "meta") 10000 server5)),
     mkWorld [EvClient (PStr "meta") 10000] (mkLocal 0 None) []).
Proof.
  apply (proj1 (proj2 (init_falsy_host_uses_config env_site (PInt 0)
                         (PStr "hive-site.xml") 10000 world0
                         eq_refl eq_refl))
           [mkProperty (Some "fs.defaultFS") (Some "hdfs://nn:8020")] []
           "thrift://meta:9083").
  - reflexivity.
  - repeat constructor. simpl. discriminate.
Defined.

(** * Dtype inference *)

Lemma infer_dtypes_length (rs : list row) :
  List.length (infer_dtypes rs) = List.length rs.
Proof. unfold infer_dtypes. apply length_map. Qed.

Lemma convert_row_cells (rs : list row) (r : row) :
  Forall2 (fun c x => x = c \/ x = to_float c) r (convert_row rs r).
Proof.
  unfold convert_row. generalize 0 as j.
  induction r as [| c r IH]; intros j; simpl; constructor.
  - destruct (float_column (column j rs)); auto.
  - apply IH.
Qed.

(** Each cell of an inferred table is the cell it was given, or its
    float. *)
Lemma infer_dtypes_cells (ctx rs : list row) :
  Forall2 (Forall2 (fun c x => x = c \/ x = to_float c)) rs
          (map (convert_row ctx) rs).
Proof.
  induction rs as [| r rs IH]; simpl; constructor.
  - apply convert_row_cells.
  - exact IH.
Qed.

Lemma typed_nth (kinds : list kind) (r : row) (j : nat) (c : cell) :
  typed kinds r -> nth_error r j = Some c ->
  exists k, nth_error kinds j = Some k /\ has_kind k c = true.
Proof.
  intros H. revert j. induction H as [| k c' kinds r Hk _ IH]; intros j Hj.
  - destruct j; discriminate.
  - destruct j as [| j]; simpl in Hj.
    + injection Hj as <-. exists k. auto.
    + apply IH. exact Hj.
Qed.

(** In rows of typed columns, the cells of column [j] are of one kind. *)
Lemma typed_column (kinds : list kind) (rs : list row) (j : nat) (k : kind) :
  Forall (typed kinds) rs ->
  nth_error kinds j = Some k ->
  Forall (fun c => has_kind k c = true) (column j rs).
Proof.
  intros H Hk. unfold column. induction H as [| r rs Hr _ IH]; simpl.
  - constructor.
  - apply Forall_app. split; [| exact IH].
    destruct (nth_error r j) as [c |] eqn:E; [| constructor].
    destruct (typed_nth kinds r j c Hr E) as (k' & Hk' & Hc).
    rewrite Hk in Hk'. injection Hk' as <-. constructor; [exact Hc | constructor].
Qed.

(** A column of one kind changes no cell of its kind. *)
Lemma float_column_typed (k : kind) (col : list cell) (c : cell) :
  Forall (fun c => has_kind k c = true) col ->
  has_kind k c = true ->
  (if float_column col then to_float c else c) = c.
Proof.
  intros Hcol Hc. destruct (float_column col) eqn:E; [| reflexivity].
  destruct k, c; try discriminate; try reflexivity.
  (* an integer column: no float and no NULL beside the integers *)
  exfalso. unfold float_column in E.
  apply andb_true_iff in E. destruct E as [_ E].
  apply orb_true_iff in E. destruct E as [E | E].
  - apply existsb_exists in E. destruct E as (x & Hin & Hx).
    rewrite Forall_forall in Hcol. specialize (Hcol x Hin).
    destruct x; discriminate.
  - apply andb_true_iff in E. destruct E as [_ E].
    apply existsb_exists in E. destruct E as (x & Hin & Hx).
    rewrite Forall_forall in Hcol. specialize (Hcol x Hin).
    destruct x; discriminate.
Qed.

Lemma convert_row_typed (kinds : list kind) (ctx : list row) (r : row) :
  Forall (typed kinds) ctx -> typed kinds r -> convert_row ctx r = r.
Proof.
  intros Hctx Hr. unfold convert_row.
  assert (H : forall j ks,
             (forall i k, nth_error ks i = Some k -> nth_error kinds (j + i) = Some k) ->
             Forall2 (fun k c => has_kind k c = true) ks r ->
             map (fun jc => if float_column (column (fst jc) ctx)
                            then to_float (snd jc) else snd jc)
                 (combine (seq j (List.length r)) r) = r).
  { clear Hr. induction r as [| c r IH]; intros j ks Hks H2; [reflexivity |].
    inversion H2 as [| k c' ks' r' Hk H2' Eks]; subst. simpl. f_equal.
    - apply (float_column_typed k); [| exact Hk].
      apply (typed_column kinds ctx j k Hctx).
      specialize (Hks 0 k eq_refl). now rewrite Nat.add_0_r in Hks.
    - apply (IH (S j) ks'); [| exact H2'].
      intros i k' Hi. specialize (Hks (S i) k' Hi).
      now rewrite Nat.add_succ_r in Hks. }
  apply (H 0 kinds); [intros i k Hi; exact Hi | exact Hr].
Qed.

Lemma map_convert_row_typed (kinds : list kind) (ctx rs : list row) :
  Forall (typed kinds) ctx -> Forall (typed kinds) rs ->
  map (convert_row ctx) rs = rs.
Proof.
  intros Hctx Hrs. induction Hrs as [| r rs Hr _ IH]; simpl; [reflexivity |].
  now rewrite (convert_row_typed kinds ctx r Hctx Hr), IH.
Qed.

(** Rows of typed columns are held as they are. *)
Lemma infer_dtypes_typed (kinds : list kind) (rs : list row) :
  Forall (typed kinds) rs -> infer_dtypes rs = rs.
Proof. intros H. now apply (map_convert_row_typed kinds). Qed.

(** * [execute] and [fetch] *)

Lemma app_cons_assoc {A} (l : list A) (a : A) (m : list A) :
  (l ++ [a]) ++ m = l ++ a :: m.
Proof. now rewrite <- app_assoc. Qed.

Lemma execute_run (self : AioHive.t) (request : string) (w : world) :
  let srv := client_server (AioHive.cli self) in
  AioHive.execute self request w =
    match srv_cursor srv with
    | inl e => (inl e, mkWorld (trace w ++ [EvCursor]) (loc w) (out w))
    | inr _ =>
        (after_close srv (srv_execute srv request),
         mkWorld (trace w ++ [EvCursor; EvExecute request; EvClose])
                 (loc w) (out w))
    end.
Proof.
  destruct self as [[h p srv]]. simpl. unfold after_close. run_calls.
  destruct (srv_cursor srv) as [e | []]; simpl; [reflexivity |].
  destruct (srv_execute srv request) as [e | []],
           (srv_close srv) as [e2 | []]; simpl;
    rewrite !app_cons_assoc; reflexivity.
Qed.

Lemma fetch_run (self : AioHive.t) (hql : string) (n : nat) (w : world) :
  let srv := client_server (AioHive.cli self) in
  AioHive.fetch self hql n w =
    match srv_cursor srv with
    | inl e => (inl e, mkWorld (trace w ++ [EvCursor]) (loc w) (out w))
    | inr _ =>
        (after_close srv (fetch_calls srv hql n),
         mkWorld (trace w ++ EvCursor :: fetch_events srv hql n ++ [EvClose])
                 (loc w) (out w))
    end.
Proof.
  destruct self as [[h p srv]]. simpl.
  unfold after_close, fetch_calls, fetch_events. run_calls.
  destruct (srv_cursor srv) as [e | []]; simpl; [reflexivity |].
  destruct (srv_execute srv hql) as [e | []]; simpl.
  { destruct (srv_close srv) as [e2 | []]; simpl;
      rewrite !app_cons_assoc; reflexivity. }
  destruct (srv_schema srv) as [e | schema]; simpl.
  { destruct (srv_close srv) as [e2 | []]; simpl;
      rewrite !app_cons_assoc; reflexivity. }
  destruct (hd (inr None) (srv_pages srv n)) as [e | pg]; simpl;
    destruct (srv_close srv) as [e2 | []]; simpl;
    rewrite !app_cons_assoc; reflexivity.
Qed.

Lemma count_app (p : event -> bool) (l m : list event) :
  count p (l ++ m) = count p l + count p m.
Proof. unfold count. now rewrite filter_app, length_app. Qed.

Lemma fetch_events_counts (srv : Server) (hql : string) (n : nat) :
  count is_cursor (fetch_events srv hql n) = 0 /\
  count is_close (fetch_events srv hql n) = 0 /\
  count is_fetch (fetch_events srv hql n) <= 1.
Proof.
  unfold fetch_events.
  destruct (srv_execute srv hql); [cbv; auto |].
  destruct (srv_schema srv); cbv; auto.
Qed.

Lemma page_frame (p : page) (cols : list string) :
  pd_DataFrame (page_or p FNone) cols =
    mkFrame cols (seq 0 (List.length (page_rows p)))
            (infer_dtypes (page_rows p)).
Proof. destruct p as [[| r rs] |]; reflexivity. Qed.

Lemma paginate_head (n : nat) (rows : list row) :
  hd (inr None) (map (@inr exn page) (paginate n rows)) = inr (Some (firstn n rows)).
Proof.
  unfold paginate. destruct rows as [| r rs]; simpl.
  - now rewrite firstn_nil.
  - reflexivity.
Qed.

(** C5, as amended: [execute] and [fetch] request one cursor; once they
    have it they close it exactly once, by a driven close that is the last
    thing they do, whether or not execute, getSchema or fetch raised; the
    exception of those calls (or the result) comes out when the close
    succeeds, and the exception of the close comes out when it fails. *)
Theorem execute_fetch_close_once
    (self : AioHive.t) (hql : string) (chunk_size : nat) (w : world) :
  let srv := client_server (AioHive.cli self) in
  closes_once srv (srv_execute srv hql) w (AioHive.execute self hql w) /\
  closes_once srv (fetch_calls srv hql chunk_size) w
              (AioHive.fetch self hql chunk_size w).
Proof.
  intros srv. split; unfold closes_once.
  - rewrite execute_run. fold srv.
    destruct (srv_cursor srv) as [e | []].
    + exists [EvCursor]. simpl. repeat split; reflexivity.
    + exists [EvCursor; EvExecute hql; EvClose]. simpl.
      repeat split; reflexivity.
  - rewrite fetch_run. fold srv.
    destruct (fetch_events_counts srv hql chunk_size) as (Hc & Hx & _).
    destruct (srv_cursor srv) as [e | []].
    + exists [EvCursor]. simpl. repeat split; reflexivity.
    + exists (EvCursor :: fetch_events srv hql chunk_size ++ [EvClose]).
      split; [reflexivity |].
      split; [| split; [| split]].
      * change (EvCursor :: fetch_events srv hql chunk_size ++ [EvClose])
          with ([EvCursor] ++ fetch_events srv hql chunk_size ++ [EvClose]).
        rewrite !count_app, Hc. reflexivity.
      * change (EvCursor :: fetch_events srv hql chunk_size ++ [EvClose])
          with ([EvCursor] ++ fetch_events srv hql chunk_size ++ [EvClose]).
        rewrite !count_app, Hx. reflexivity.
      * change (EvCursor :: fetch_events srv hql chunk_size ++ [EvClose])
          with ((EvCursor :: fetch_events srv hql chunk_size) ++ [EvClose]).
        apply last_last.
      * reflexivity.
Qed.

(** C5, as stated, fails: the execute call raises transport error 1, the
    close raises transport error 2, and what [execute] propagates is the
    error of the close. *)
Lemma execute_close_error_replaces_original :
  srv_execute server_failing "drop table t" = inl (TransportError 1) /\
  AioHive.execute (client_of server_failing) "drop table t" world0 =
    (inl (TransportError 2),
     mkWorld [EvCursor; EvExecute "drop table t"; EvClose] (mkLocal 0 None) []).
Proof. split; reflexivity. Qed.

(** C3: [fetch] drives at most one page fetch; a table it returns has the
    columns of the schema and the rows of the first page, none when that
    page is empty or absent; on a server that pages a result set it returns
    the first [chunk_size] rows and no more, with one fetch, however many
    rows there are. *)
Theorem fetch_first_page_only
    (self : AioHive.t) (hql : string) (chunk_size : nat) (w : world) :
  let srv := client_server (AioHive.cli self) in
  (exists evs,
      trace (snd (AioHive.fetch self hql chunk_size w)) = trace w ++ evs /\
      count is_fetch evs <= 1) /\
  (forall data,
      fst (AioHive.fetch self hql chunk_size w) = inr data ->
      exists schema p,
        srv_schema srv = inr schema /\
        hd (inr None) (srv_pages srv chunk_size) = inr p /\
        data = mkFrame (AioHive.pd_Index schema)
                       (seq 0 (List.length (page_rows p)))
                       (infer_dtypes (page_rows p)) /\
        (page_truthy p = false ->
         data = mkFrame (AioHive.pd_Index schema) [] [])) /\
  (forall schema rows,
      AioHive.fetch (client_of (paged_server schema rows)) hql chunk_size w =
        (inr (materialize schema (firstn chunk_size rows)),
         mkWorld (trace w ++ [EvCursor; EvExecute hql; EvGetSchema;
                              EvFetch chunk_size; EvClose])
                 (loc w) (out w)) /\
      len (materialize schema (firstn chunk_size rows)) =
        Nat.min chunk_size (List.length rows)).
Proof.
  intros srv. split; [| split].
  - rewrite fetch_run. fold srv.
    destruct (fetch_events_counts srv hql chunk_size) as (_ & _ & Hf).
    destruct (srv_cursor srv) as [e | []].
    + exists [EvCursor]. split; [reflexivity | cbv; auto].
    + exists (EvCursor :: fetch_events srv hql chunk_size ++ [EvClose]).
      split; [reflexivity |].
      change (EvCursor :: fetch_events srv hql chunk_size ++ [EvClose])
        with ([EvCursor] ++ fetch_events srv hql chunk_size ++ [EvClose]).
      rewrite !count_app. change (count is_fetch [EvCursor]) with 0.
      change (count is_fetch [EvClose]) with 0. lia.
  - intros data. rewrite fetch_run. fold srv.
    destruct (srv_cursor srv) as [e | []]; simpl; [discriminate |].
    unfold after_close, fetch_calls.
    destruct (srv_close srv) as [e2 | []]; [discriminate |].
    destruct (srv_execute srv hql) as [e | []]; [discriminate |].
    destruct (srv_schema srv) as [e | schema]; [discriminate |].
    destruct (hd (inr None) (srv_pages srv chunk_size)) as [e | p];
      [discriminate |].
    intros E. injection E as <-. exists schema, p.
    repeat split; try reflexivity.
    + apply page_frame.
    + intros Hp. rewrite page_frame.
      destruct p as [[| r rs] |]; try reflexivity; discriminate.
  - intros schema rows. split.
    + rewrite fetch_run. simpl.
      unfold after_close, fetch_calls, fetch_events. simpl.
      rewrite paginate_head. simpl.
      destruct (firstn chunk_size rows) eqn:E; reflexivity.
    + unfold materialize, len. cbn [pd_DataFrame values].
      rewrite infer_dtypes_length. apply length_firstn.
Qed.

(** * The generator of [iter] and its consumers *)

Lemma seq_add_offset (off s n : nat) :
  map (fun i => i + off) (seq s n) = seq (s + off) n.
Proof.
  revert s. induction n as [| n IH]; intros s; simpl.
  - reflexivity.
  - now rewrite IH.
Qed.

Section Loop.

Variables (cols : list string) (n : nat) (cur : Cursor).
Variable keep : DataFrame -> bool.

Local Abbreviation gen st os :=
  (AioHive.mkClosing st (map (Cur.fetch_co n) os) cols cur).

(** Driving [to_frame] on a page that arrives. *)
Lemma to_frame_ok (p : page) (w : world) :
  local_ok cols (loc w) ->
  AioHive.to_frame cols (Cur.fetch_co n (inr p)) w =
    (inr (chunk_frame cols (offset (loc w)) p),
     mkWorld (trace w ++ [EvFetch n])
             (mkLocal (offset (loc w) + List.length (page_rows p))
                      (Some (mkFrame cols [] [])))
             (out w)).
Proof.
  intros Hl.
  assert (E : pd_DataFrame
                (page_or p (match empty (loc w) with
                            | Some e => FFrame e
                            | None => FNone
                            end)) cols
              = mkFrame cols (seq 0 (List.length (page_rows p)))
                        (infer_dtypes (page_rows p))).
  { destruct p as [[| r rs] |]; destruct Hl as [-> | ->]; reflexivity. }
  unfold AioHive.to_frame, Cur.fetch_co, bind, emit, lift, ret,
    get_local, set_local, chunk_frame.
  cbn [loc trace out fst snd]. rewrite E.
  unfold index_iadd, len, slice0_copy.
  cbn [index values columns offset empty loc firstn].
  rewrite infer_dtypes_length, seq_add_offset. cbn [Nat.add].
  destruct Hl as [-> | ->]; reflexivity.
Qed.

(** Driving [to_frame] on a fetch that raises. *)
Lemma to_frame_err (e : exn) (w : world) :
  AioHive.to_frame cols (Cur.fetch_co n (inl e)) w =
    (inl e, mkWorld (trace w ++ [EvFetch n]) (loc w) (out w)).
Proof. reflexivity. Qed.

Lemma for_chunks_end (k : nat) (body : DataFrame -> M unit)
    (st : AioHive.gen_status) (w : world) :
  st <> AioHive.Finished ->
  for_chunks (S k) body (gen st []) w =
    (inr (true, gen AioHive.Finished []),
     mkWorld (trace w ++ [EvCloseCoro]) (loc w) (out w)).
Proof. destruct st; intros H; [reflexivity | reflexivity | now elim H]. Qed.

Lemma for_chunks_err (k : nat) (body : DataFrame -> M unit)
    (st : AioHive.gen_status) (e : exn) (os : list (exn + page)) (w : world) :
  st <> AioHive.Finished ->
  for_chunks (S k) body (gen st (inl e :: os)) w =
    (inl e,
     mkWorld ((trace w ++ [EvFetch n]) ++ [EvCloseCoro]) (loc w) (out w)).
Proof. destruct st; intros H; [reflexivity | reflexivity | now elim H]. Qed.

Lemma for_chunks_ok (k : nat) (st : AioHive.gen_status) (p : page)
    (os : list (exn + page)) (w : world) :
  st <> AioHive.Finished ->
  local_ok cols (loc w) ->
  for_chunks (S k) (yield_if keep) (gen st (inr p :: os)) w =
    for_chunks k (yield_if keep) (gen AioHive.Suspended os)
      (mkWorld (trace w ++ [EvFetch n])
               (mkLocal (offset (loc w) + List.length (page_rows p))
                        (Some (mkFrame cols [] [])))
               (out w ++ filter keep [chunk_frame cols (offset (loc w)) p])).
Proof.
  intros Hst Hl.
  assert (E : forall st', st' <> AioHive.Finished ->
    for_chunks (S k) (yield_if keep) (gen st' (inr p :: os)) w =
    bind (try_except_raise
            (bind (AioHive.to_frame cols (Cur.fetch_co n (inr p)))
                  (yield_if keep))
            (bind (AioHive.close (gen AioHive.Suspended os)) (fun _ => ret tt)))
         (fun _ => for_chunks k (yield_if keep) (gen AioHive.Suspended os)) w).
  { intros st' H. destruct st'; [reflexivity | reflexivity | now elim H]. }
  rewrite (E st Hst). unfold bind at 1, try_except_raise, bind at 1.
  rewrite (to_frame_ok p w Hl). unfold yield_if, yield_. simpl.
  destruct (keep (chunk_frame cols (offset (loc w)) p)); simpl.
  - reflexivity.
  - now rewrite app_nil_r.
Qed.

Lemma live_suspended : AioHive.Suspended <> AioHive.Finished.
Proof. discriminate. Qed.

(** The events of the loop: some fetches, then the undriven close of the
    [finally] block unless the loop stopped with the frame suspended. *)
Lemma for_chunks_trace (os : list (exn + page)) :
  forall k st w,
    st <> AioHive.Finished -> local_ok cols (loc w) ->
    exists j c,
      trace (snd (for_chunks k (yield_if keep) (gen st os) w)) =
        trace w ++ repeat (EvFetch n) j ++ repeat EvCloseCoro c /\
      j <= k /\ j <= List.length os /\
      match fst (for_chunks k (yield_if keep) (gen st os) w) with
      | inl _ => c = 1
      | inr (true, g') => c = 1 /\ AioHive.status g' = AioHive.Finished
      | inr (false, g') =>
          c = 0 /\ AioHive.gen_cur g' = cur /\
          (AioHive.status g' = AioHive.Suspended \/
           (k = 0 /\ AioHive.status g' = st))
      end.
Proof.
  induction os as [| o os' IH]; intros k st w Hst Hl.
  - destruct k as [| k].
    + exists 0, 0. simpl. rewrite app_nil_r. repeat split; auto.
    + rewrite for_chunks_end by assumption. exists 0, 1. simpl.
      repeat split; auto with arith.
  - destruct k as [| k].
    + exists 0, 0. simpl. rewrite app_nil_r. repeat split; auto with arith.
    + destruct o as [e | p].
      * rewrite for_chunks_err by assumption. exists 1, 1. simpl.
        rewrite <- app_assoc. repeat split; auto with arith.
      * rewrite for_chunks_ok by assumption.
        set (w1 := mkWorld _ _ _).
        destruct (IH k AioHive.Suspended w1 live_suspended)
          as (j & c & Ht & Hj & Hjl & Hr).
        { right. reflexivity. }
        exists (S j), c. rewrite Ht. subst w1. simpl.
        rewrite <- app_assoc. simpl. repeat split; auto with arith.
        destruct (fst (for_chunks k (yield_if keep) (gen AioHive.Suspended os') _))
          as [e | [[|] g']]; auto.
        destruct Hr as (Hc & Hcur & [Hs | [_ Hs]]); auto.
Qed.

(** The tables the loop hands on and what it leaves in [local]. *)
Lemma for_chunks_out (os : list (exn + page)) :
  forall k st w,
    st <> AioHive.Finished -> local_ok cols (loc w) ->
    let w' := snd (for_chunks k (yield_if keep) (gen st os) w) in
    let ps := firstn k (ok_prefix os) in
    out w' = out w ++ filter keep (tables_from cols (offset (loc w)) ps) /\
    offset (loc w') = offset (loc w) + List.length (rows_of ps) /\
    local_ok cols (loc w') /\
    (empty (loc w) = Some (mkFrame cols [] []) ->
     empty (loc w') = Some (mkFrame cols [] [])) /\
    (ps <> [] -> empty (loc w') = Some (mkFrame cols [] [])).
Proof.
  induction os as [| o os' IH]; intros k st w Hst Hl.
  - destruct k as [| k]; [| rewrite for_chunks_end by assumption];
      simpl; rewrite app_nil_r, Nat.add_0_r; repeat split; auto;
      intros H; now elim H.
  - destruct k as [| k].
    { simpl; rewrite app_nil_r, Nat.add_0_r; repeat split; auto;
        intros H; now elim H. }
    destruct o as [e | p].
    + rewrite for_chunks_err by assumption.
      simpl; rewrite app_nil_r, Nat.add_0_r; repeat split; auto;
        intros H; now elim H.
    + rewrite for_chunks_ok by assumption.
      set (w1 := mkWorld _ _ _).
      destruct (IH k AioHive.Suspended w1 live_suspended)
        as (Ho & Hoff & Hok & Hkeep & _).
      { right. reflexivity. }
      cbn zeta. simpl firstn. simpl tables_from.
      rewrite Ho, Hoff. subst w1. simpl.
      unfold rows_of. simpl. rewrite length_app.
      repeat split; auto.
      * destruct (keep (chunk_frame cols (offset (loc w)) p)); simpl;
          now rewrite <- app_assoc.
      * lia.
Qed.

(** With more budget than chunks the loop ends by exhaustion or by the
    first fetch that raises. *)
Lemma for_chunks_result (os : list (exn + page)) :
  forall k st w,
    st <> AioHive.Finished -> local_ok cols (loc w) ->
    List.length os < k ->
    match fst (for_chunks k (yield_if keep) (gen st os) w) with
    | inl e => first_error os = Some e
    | inr (b, _) => b = true /\ first_error os = None
    end.
Proof.
  induction os as [| o os' IH]; intros k st w Hst Hl Hk.
  - destruct k as [| k]; [inversion Hk |].
    rewrite for_chunks_end by assumption. simpl. auto.
  - destruct k as [| k]; [inversion Hk |]. simpl in Hk.
    destruct o as [e | p].
    + rewrite for_chunks_err by assumption. reflexivity.
    + rewrite for_chunks_ok by assumption. simpl first_error.
      apply IH; [exact live_suspended | right; reflexivity | lia].
Qed.

(** [consume] in terms of the loop. *)
Lemma consume_run (k : nat) (body : DataFrame -> M unit)
    (g : AioHive.closing) (w : world) :
  consume k body g w =
    match for_chunks k body g w with
    | (inl e, w') => (inl e, w')
    | (inr (b, g'), w') =>
        (inr b,
         match AioHive.status g' with
         | AioHive.Suspended =>
             mkWorld (trace w' ++ [EvCloseCoro]) (loc w') (out w')
         | _ => w'
         end)
    end.
Proof.
  unfold consume, bind.
  destruct (for_chunks k body g w) as [[e | [b g']] w']; [reflexivity |].
  simpl. unfold AioHive.close.
  destruct (AioHive.status g'); reflexivity.
Qed.

(** The events of a consumer that takes up to [k] items and drops the
    generator: fetches, then one undriven close when the frame was ever
    entered, and nothing else. *)
Lemma consume_trace (os : list (exn + page)) (k : nat)
    (st : AioHive.gen_status) (w : world) :
  st <> AioHive.Finished -> local_ok cols (loc w) ->
  exists j,
    j <= k /\ j <= List.length os /\
    trace (snd (consume k (yield_if keep) (gen st os) w)) =
      trace w ++ repeat (EvFetch n) j
              ++ (if entered k st then [EvCloseCoro] else []).
Proof.
  intros Hst Hl.
  destruct (for_chunks_trace os k st w Hst Hl) as (j & c & Ht & Hj & Hjl & Hr).
  exists j. split; [exact Hj |]. split; [exact Hjl |].
  rewrite consume_run.
  destruct (for_chunks k (yield_if keep) (gen st os) w)
    as [[e | [b g']] w'] eqn:E; simpl in *.
  - subst c. rewrite Ht. destruct k, st; try reflexivity; now elim Hst.
  - destruct b.
    + destruct Hr as [-> Hs]. rewrite Hs, Ht.
      destruct k as [| k]; [| destruct st; reflexivity].
      simpl in E. injection E as _ <- _. simpl in Hs. now elim Hst.
    + destruct Hr as (-> & _ & [Hs | [-> Hs]]).
      * rewrite Hs. simpl. rewrite Ht. simpl. rewrite app_nil_r.
        rewrite <- app_assoc.
        destruct k as [| k]; [| destruct st; reflexivity].
        simpl in E. injection E as <- _. simpl in Hs. subst st. reflexivity.
      * rewrite Hs. destruct st; simpl; rewrite Ht; simpl;
          rewrite ?app_nil_r, <- ?app_assoc; try reflexivity.
        now elim Hst.
Qed.

Lemma consume_out (os : list (exn + page)) (k : nat)
    (st : AioHive.gen_status) (w : world) :
  st <> AioHive.Finished -> local_ok cols (loc w) ->
  let w' := snd (consume k (yield_if keep) (gen st os) w) in
  let ps := firstn k (ok_prefix os) in
  out w' = out w ++ filter keep (tables_from cols (offset (loc w)) ps) /\
  offset (loc w') = offset (loc w) + List.length (rows_of ps) /\
  (ps <> [] -> empty (loc w') = Some (mkFrame cols [] [])).
Proof.
  intros Hst Hl.
  destruct (for_chunks_out os k st w Hst Hl) as (Ho & Hoff & _ & _ & He).
  cbn zeta. rewrite consume_run.
  destruct (for_chunks k (yield_if keep) (gen st os) w)
    as [[e | [b g']] w']; simpl in *.
  - auto.
  - destruct (AioHive.status g'); simpl; auto.
Qed.

Lemma consume_result (os : list (exn + page)) (k : nat)
    (st : AioHive.gen_status) (w : world) :
  st <> AioHive.Finished -> local_ok cols (loc w) ->
  List.length os < k ->
  fst (consume k (yield_if keep) (gen st os) w) =
    match first_error os with
    | Some e => inl e
    | None => inr true
    end.
Proof.
  intros Hst Hl Hk.
  pose proof (for_chunks_result os k st w Hst Hl Hk) as H.
  rewrite consume_run.
  destruct (for_chunks k (yield_if keep) (gen st os) w)
    as [[e | [b g']] w']; simpl in *.
  - now rewrite H.
  - destruct H as [-> ->]. reflexivity.
Qed.

End Loop.

(** * [iter] *)

Lemma iter_run (self : AioHive.t) (hql : string) (n : nat) (w : world) :
  let srv := client_server (AioHive.cli self) in
  AioHive.iter self hql n w =
    match srv_cursor srv with
    | inl e => (inl e, mkWorld (trace w ++ [EvCursor]) (loc w) (out w))
    | inr _ =>
        match srv_execute srv hql with
        | inl e =>
            (inl e,
             mkWorld (trace w ++ [EvCursor; EvExecute hql; EvCloseCoro])
                     (loc w) (out w))
        | inr _ =>
            match srv_schema srv with
            | inl e =>
                (inl e,
                 mkWorld (trace w ++ [EvCursor; EvExecute hql; EvGetSchema;
                                      EvCloseCoro])
                         (loc w) (out w))
            | inr schema =>
                (inr (AioHive.mkClosing AioHive.Created
                        (map (Cur.fetch_co n) (srv_pages srv n))
                        (AioHive.pd_Index schema) (mkCursor srv)),
                 mkWorld (trace w ++ [EvCursor; EvExecute hql; EvGetSchema])
                         (mkLocal 0 None) (out w))
            end
        end
    end.
Proof.
  destruct self as [[h p srv]]. simpl. unfold Cur.iter. run_calls.
  destruct (srv_cursor srv) as [e | []]; simpl; [reflexivity |].
  destruct (srv_execute srv hql) as [e | []]; simpl.
  { rewrite !app_cons_assoc; reflexivity. }
  destruct (srv_schema srv) as [e | schema]; simpl;
    rewrite !app_cons_assoc; reflexivity.
Qed.

Lemma count_repeat_fetch (p : event -> bool) (n j : nat) :
  p (EvFetch n) = false -> count p (repeat (EvFetch n) j) = 0.
Proof.
  intros H. unfold count. induction j as [| j IH]; simpl.
  - reflexivity.
  - now rewrite H.
Qed.

Lemma filter_all {A} (l : list A) : filter (fun _ => true) l = l.
Proof. induction l as [| a l IH]; simpl; [reflexivity | now rewrite IH]. Qed.

Lemma ok_prefix_all (ps : list page) : ok_prefix (map inr ps) = ps.
Proof. induction ps as [| p ps IH]; simpl; [reflexivity | now rewrite IH]. Qed.

Lemma first_error_all (ps : list page) : first_error (map inr ps) = None.
Proof. induction ps as [| p ps IH]; simpl; [reflexivity | exact IH]. Qed.

(** ** The tables of a list of pages *)

Lemma tables_from_columns (cols : list string) (ps : list page) (off : nat) :
  Forall (fun d => columns d = cols) (tables_from cols off ps).
Proof.
  revert off. induction ps as [| p ps IH]; intros off; simpl; constructor.
  - reflexivity.
  - apply IH.
Qed.

Lemma tables_from_values (cols : list string) (ps : list page) (off : nat) :
  List.concat (map values (tables_from cols off ps)) = cells_of ps.
Proof.
  revert off. induction ps as [| p ps IH]; intros off; simpl.
  - reflexivity.
  - rewrite IH. reflexivity.
Qed.

Lemma cells_of_length (ps : list page) :
  List.length (cells_of ps) = List.length (rows_of ps).
Proof.
  unfold cells_of, rows_of. induction ps as [| p ps IH]; simpl.
  - reflexivity.
  - now rewrite !length_app, infer_dtypes_length, IH.
Qed.

Lemma tables_from_index (cols : list string) (ps : list page) (off : nat) :
  List.concat (map index (tables_from cols off ps)) =
    seq off (List.length (rows_of ps)).
Proof.
  revert off. induction ps as [| p ps IH]; intros off; simpl.
  - reflexivity.
  - rewrite IH. unfold rows_of. simpl. rewrite length_app, seq_app.
    reflexivity.
Qed.

(** The index of the [i]-th table starts where the rows of the tables
    before it end. *)
Lemma tables_from_nth (cols : list string) (ps : list page) :
  forall off i d,
    nth_error (tables_from cols off ps) i = Some d ->
    index d =
      seq (off + List.length
                   (List.concat (map values (firstn i (tables_from cols off ps)))))
          (len d).
Proof.
  induction ps as [| p ps IH]; intros off i d H.
  - destruct i; discriminate.
  - destruct i as [| i]; simpl in H.
    + injection H as <-. unfold len. simpl.
      now rewrite Nat.add_0_r, infer_dtypes_length.
    + simpl. rewrite length_app, infer_dtypes_length, Nat.add_assoc.
      now apply IH.
Qed.

Lemma tables_from_rows (cols : list string) (ps : list page) (off : nat) :
  Forall (fun d => List.length (index d) = len d) (tables_from cols off ps).
Proof.
  revert off. induction ps as [| p ps IH]; intros off; simpl; constructor.
  - unfold len. simpl. now rewrite length_seq, infer_dtypes_length.
  - apply IH.
Qed.

(** ** Paging *)

Lemma paginate_go_rows (n : nat) :
  0 < n ->
  forall fuel rs, List.length rs <= fuel -> rows_of (paginate_go fuel n rs) = rs.
Proof.
  intros Hn. induction fuel as [| fuel IH]; intros rs Hlen.
  - destruct rs; [reflexivity | inversion Hlen].
  - destruct rs as [| r rs]; [reflexivity |].
    change (rows_of (Some (firstn n (r :: rs))
                       :: paginate_go fuel n (skipn n (r :: rs))) = r :: rs).
    unfold rows_of. simpl map. simpl List.concat.
    fold (rows_of (paginate_go fuel n (skipn n (r :: rs)))).
    rewrite IH.
    + apply firstn_skipn.
    + rewrite length_skipn.
      change (List.length (r :: rs)) with (S (List.length rs)) in *. lia.
Qed.

Lemma paginate_rows (n : nat) (rs : list row) :
  0 < n -> rows_of (paginate n rs) = rs.
Proof. intros Hn. now apply paginate_go_rows. Qed.

Lemma paginate_go_cons (fuel n : nat) (rs : list row) :
  exists p ps, paginate_go fuel n rs = p :: ps.
Proof. destruct fuel, rs; simpl; eauto. Qed.

(** * Chunked reads *)

Lemma read_chunks_run (self : AioHive.t) (hql : string) (n k : nat)
    (w : world) (g : AioHive.closing) (w1 : world) :
  AioHive.iter self hql n w = (inr g, w1) ->
  read_chunks self hql n k w = consume k yield_ g w1.
Proof. intros H. unfold read_chunks, bind. now rewrite H. Qed.

(** What a successful construction leaves. *)
Lemma iter_ok (self : AioHive.t) (hql : string) (n : nat)
    (w : world) (g : AioHive.closing) (w1 : world) :
  AioHive.iter self hql n w = (inr g, w1) ->
  let srv := client_server (AioHive.cli self) in
  exists schema,
    srv_schema srv = inr schema /\
    g = AioHive.mkClosing AioHive.Created
          (map (Cur.fetch_co n) (srv_pages srv n))
          (AioHive.pd_Index schema) (mkCursor srv) /\
    w1 = mkWorld (trace w ++ [EvCursor; EvExecute hql; EvGetSchema])
                 (mkLocal 0 None) (out w).
Proof.
  rewrite iter_run. cbn zeta.
  destruct (srv_cursor _) as [e | []]; [discriminate |].
  destruct (srv_execute _ hql) as [e | []]; [discriminate |].
  destruct (srv_schema _) as [e | schema]; [discriminate |].
  intros H. injection H as <- <-. exists schema. auto.
Qed.

Lemma created_live : AioHive.Created <> AioHive.Finished.
Proof. discriminate. Qed.

(** No run of [iter], however far its generator is consumed and however
    the server answers, drives a close of the cursor: the only closes are
    calls whose coroutine is dropped, at most one of them. *)
Lemma iter_never_drives_close
    (self : AioHive.t) (hql : string) (n k : nat) (w : world) :
  exists evs,
    trace (snd (read_chunks self hql n k w)) = trace w ++ evs /\
    count is_close evs = 0 /\
    count is_close_coro evs <= 1.
Proof.
  destruct (AioHive.iter self hql n w) as [[e | g] w1] eqn:E.
  - unfold read_chunks, bind. rewrite E. simpl.
    rewrite iter_run in E. cbn zeta in E.
    destruct (srv_cursor _) as [e1 | []].
    { injection E as _ <-. exists [EvCursor]. cbv; auto. }
    destruct (srv_execute _ hql) as [e1 | []].
    { injection E as _ <-. eexists. split; [reflexivity | cbv; auto]. }
    destruct (srv_schema _) as [e1 | schema]; [| discriminate].
    injection E as _ <-. eexists. split; [reflexivity | cbv; auto].
  - rewrite (read_chunks_run self hql n k w g w1 E).
    destruct (iter_ok self hql n w g w1 E) as (schema & _ & -> & ->).
    destruct (consume_trace (AioHive.pd_Index schema) n
                (mkCursor (client_server (AioHive.cli self)))
                (fun _ => true)
                (srv_pages (client_server (AioHive.cli self)) n) k
                AioHive.Created
                (mkWorld (trace w ++ [EvCursor; EvExecute hql; EvGetSchema])
                         (mkLocal 0 None) (out w))
                created_live (or_introl eq_refl))
      as (j & _ & _ & Ht).
    change (yield_if (fun _ => true)) with yield_ in Ht.
    rewrite Ht. simpl trace. rewrite <- app_assoc.
    eexists. split; [reflexivity |].
    rewrite !count_app, !count_repeat_fetch by reflexivity.
    destruct (entered k AioHive.Created); cbv; auto.
Qed.

(** C1, on the code: five rows read in chunks of two.  Whether the
    generator is exhausted, dropped after two tables, dropped before it is
    started, or dropped when a page fetch raises, the trace holds no driven
    close of the cursor.  The [finally] block of [closing] calls
    [cur.close()] and drops the coroutine; the generator that is never
    started does not even do that. *)
Theorem iter_cursor_left_open :
  read_all_chunks (client_of server5) "SELECT * FROM t" 2 world0 =
    (inr true,
     mkWorld [EvCursor; EvExecute "SELECT * FROM t"; EvGetSchema;
              EvFetch 2; EvFetch 2; EvFetch 2; EvFetch 2; EvCloseCoro]
             (mkLocal 5 (Some (mkFrame ["a"; "b"] [] [])))
             (tables_from ["a"; "b"] 0
                [Some [cell_row 1; cell_row 2]; Some [cell_row 3; cell_row 4];
                 Some [cell_row 5]; Some []])) /\
  trace (snd (read_chunks (client_of server5) "SELECT * FROM t" 2 2 world0)) =
    [EvCursor; EvExecute "SELECT * FROM t"; EvGetSchema;
     EvFetch 2; EvFetch 2; EvCloseCoro] /\
  trace (snd (read_chunks (client_of server5) "SELECT * FROM t" 2 0 world0)) =
    [EvCursor; EvExecute "SELECT * FROM t"; EvGetSchema] /\
  read_all_chunks (client_of server_fetch_error) "SELECT * FROM t" 2 world0 =
    (inl (TransportError 7),
     mkWorld [EvCursor; EvExecute "SELECT * FROM t"; EvGetSchema;
              EvFetch 2; EvFetch 2; EvCloseCoro]
             (mkLocal 2 (Some (mkFrame ["a"; "b"] [] [])))
             [mkFrame ["a"; "b"] [0; 1] [cell_row 1; cell_row 2]]) /\
  snd (AioHive.execute (client_of server5) "SELECT * FROM t" world0) =
    mkWorld [EvCursor; EvExecute "SELECT * FROM t"; EvClose]
            (mkLocal 0 None) [].
Proof. repeat split; reflexivity. Qed.

(** C8: when the construction of [iter] succeeds it has fetched the schema
    once, after the execute and before any page fetch; whatever is consumed
    afterwards adds page fetches and at most the undriven close, no schema
    fetch; and every table that comes out, the zero-row tables of empty and
    absent pages among them, has the columns of that schema. *)
Theorem iter_schema_once
    (self : AioHive.t) (hql : string) (n : nat)
    (w : world) (g : AioHive.closing) (w1 : world) :
  AioHive.iter self hql n w = (inr g, w1) ->
  exists schema,
    srv_schema (client_server (AioHive.cli self)) = inr schema /\
    trace w1 = trace w ++ [EvCursor; EvExecute hql; EvGetSchema] /\
    AioHive.gen_columns g = AioHive.pd_Index schema /\
    forall k,
      let w2 := snd (consume k yield_ g w1) in
      (exists j,
          trace w2 = trace w1 ++ repeat (EvFetch n) j
                       ++ (if entered k AioHive.Created then [EvCloseCoro] else [])) /\
      count is_schema (trace w2) = count is_schema (trace w) + 1 /\
      out w2 =
        out w1 ++ tables_from (AioHive.pd_Index schema) 0
                     (firstn k (ok_prefix
                        (srv_pages (client_server (AioHive.cli self)) n))) /\
      (forall d, In d (out w2) -> In d (out w1) \/
                                  columns d = AioHive.pd_Index schema).
Proof.
  intros E.
  destruct (iter_ok self hql n w g w1 E) as (schema & Hs & -> & ->).
  exists schema. split; [exact Hs |]. split; [reflexivity |].
  split; [reflexivity |]. intros k.
  set (srv := client_server (AioHive.cli self)).
  set (w1 := mkWorld _ _ _).
  destruct (consume_trace (AioHive.pd_Index schema) n (mkCursor srv)
              (fun _ => true) (srv_pages srv n) k AioHive.Created w1
              created_live (or_introl eq_refl))
    as (j & _ & _ & Ht).
  destruct (consume_out (AioHive.pd_Index schema) n (mkCursor srv)
              (fun _ => true) (srv_pages srv n) k AioHive.Created w1
              created_live (or_introl eq_refl))
    as (Ho & _ & _).
  change (yield_if (fun _ => true)) with yield_ in Ht, Ho.
  rewrite filter_all in Ho. cbn zeta.
  split; [exists j; exact Ht |]. split; [| split].
  - rewrite Ht. subst w1. simpl trace.
    rewrite !count_app, count_repeat_fetch by reflexivity.
    destruct (entered k AioHive.Created); cbv [count filter is_schema List.length];
      lia.
  - exact Ho.
  - intros d Hd. rewrite Ho in Hd. apply in_app_or in Hd.
    destruct Hd as [Hd | Hd]; [now left | right].
    pose proof (tables_from_columns (AioHive.pd_Index schema)
                  (firstn k (ok_prefix (srv_pages srv n))) 0) as Hall.
    rewrite Forall_forall in Hall. now apply Hall.
Qed.

Lemma iter_schema_once_witness :
  exists schema,
    srv_schema server_gaps = inr schema /\
    forall k d,
      In d (out (snd (read_chunks (client_of server_gaps) "SELECT * FROM t" 2 k world0))) ->
      columns d = AioHive.pd_Index schema.
Proof.
  destruct (iter_schema_once (client_of server_gaps) "SELECT * FROM t" 2 world0
              (AioHive.mkClosing AioHive.Created
                 (map (Cur.fetch_co 2) (srv_pages server_gaps 2))
                 ["a"; "b"] (mkCursor server_gaps))
              (mkWorld [EvCursor; EvExecute "SELECT * FROM t"; EvGetSchema]
                       (mkLocal 0 None) [])
              eq_refl)
    as (schema & Hs & _ & _ & Hk).
  exists schema. split; [exact Hs |]. intros k d Hd.
  destruct (Hk k) as (_ & _ & _ & Hcols).
  destruct (Hcols d Hd) as [[] | H]. exact H.
Defined.

(** Reading every chunk from a server that answers every call: the tables
    of all its pages, one undriven close, no exception. *)
Lemma read_all_chunks_pages (schema : list nfo) (ps : list page)
    (srv : Server) (hql : string) (n : nat) (w : world) :
  srv_cursor srv = inr tt ->
  srv_execute srv hql = inr tt ->
  srv_schema srv = inr schema ->
  srv_pages srv n = map inr ps ->
  fst (read_all_chunks (client_of srv) hql n w) = inr true /\
  out (snd (read_all_chunks (client_of srv) hql n w)) =
    out w ++ tables_from (AioHive.pd_Index schema) 0 ps.
Proof.
  intros Hc He Hs Hp.
  unfold read_all_chunks, consume_all, bind.
  rewrite iter_run. simpl client_server. cbn zeta.
  rewrite Hc, He, Hs, Hp. simpl AioHive.chunks.
  rewrite !length_map.
  set (w1 := mkWorld _ _ _).
  change yield_ with (yield_if (fun _ => true)).
  split.
  - rewrite (consume_result (AioHive.pd_Index schema) n (mkCursor srv)
               (fun _ => true) (map inr ps) (S (List.length ps))
               AioHive.Created w1 created_live (or_introl eq_refl)).
    + now rewrite first_error_all.
    + rewrite length_map. auto with arith.
  - destruct (consume_out (AioHive.pd_Index schema) n (mkCursor srv)
                (fun _ => true) (map inr ps) (S (List.length ps))
                AioHive.Created w1 created_live (or_introl eq_refl))
      as (Ho & _ & _).
    rewrite Ho, filter_all, ok_prefix_all, firstn_all2 by auto with arith.
    reflexivity.
Qed.

Lemma same_up_to_dtype_rows (r x y : row) :
  Forall2 (fun c x => x = c \/ x = to_float c) r x ->
  Forall2 (fun c x => x = c \/ x = to_float c) r y ->
  Forall2 same_up_to_dtype x y.
Proof.
  intros Hx. revert y. induction Hx as [| c a r x Ha _ IH]; intros y Hy.
  - inversion Hy. constructor.
  - inversion Hy as [| c' b r' y' Hb Hy' E1]; subst. constructor.
    + unfold same_up_to_dtype.
      destruct Ha as [-> | ->], Hb as [-> | ->]; auto.
    + apply IH. exact Hy'.
Qed.

Lemma same_up_to_dtype_tables (rs xs ys : list row) :
  Forall2 (Forall2 (fun c x => x = c \/ x = to_float c)) rs xs ->
  Forall2 (Forall2 (fun c x => x = c \/ x = to_float c)) rs ys ->
  Forall2 (Forall2 same_up_to_dtype) xs ys.
Proof.
  intros Hx. revert ys. induction Hx as [| r x rs xs Hr _ IH]; intros ys Hy.
  - inversion Hy. constructor.
  - inversion Hy as [| r' y rs' ys' Hr' Hy' E1]; subst. constructor.
    + exact (same_up_to_dtype_rows r x y Hr Hr').
    + apply IH. exact Hy'.
Qed.

(** The cells of the tables of the pages against the rows of the pages. *)
Lemma cells_of_rows (ps : list page) :
  Forall2 (Forall2 (fun c x => x = c \/ x = to_float c))
          (rows_of ps) (cells_of ps).
Proof.
  unfold rows_of, cells_of. induction ps as [| p ps IH]; simpl.
  - constructor.
  - apply Forall2_app; [| exact IH].
    apply (infer_dtypes_cells (page_rows p) (page_rows p)).
Qed.

Lemma cells_of_typed (kinds : list kind) (ps : list page) :
  Forall (typed kinds) (rows_of ps) -> cells_of ps = rows_of ps.
Proof.
  unfold rows_of, cells_of. induction ps as [| p ps IH]; simpl; intros H.
  - reflexivity.
  - apply Forall_app in H. destruct H as [Hp Hps].
    now rewrite (infer_dtypes_typed kinds _ Hp), (IH Hps).
Qed.

(** C2, as amended: for a chunk size above zero, the tables that [iter]
    gives for a query, read in order to the end from a server that pages
    the result set, have the columns of the full materialization; put one
    after the other they hold as many rows, in the same order, each cell
    the same as in the full materialization up to the dtype conversion
    that the table constructor does within each table (an integer against
    its float, [None] against NaN), and the very same cells when no value
    is NULL and every column holds values of one type; the row index of
    the tables one after the other is that of the full materialization,
    0, 1, ..., and the index of each table starts at the number of rows of
    the tables before it and runs on by one per row. *)
Theorem chunks_concat_up_to_dtypes
    (schema : list nfo) (rows : list row) (hql : string) (C : nat) (w : world) :
  0 < C ->
  exists ts,
    fst (read_all_chunks (client_of (paged_server schema rows)) hql C w) =
      inr true /\
    out (snd (read_all_chunks (client_of (paged_server schema rows)) hql C w)) =
      out w ++ ts /\
    Forall (fun d => columns d = columns (materialize schema rows)) ts /\
    Forall2 (Forall2 same_up_to_dtype)
            (List.concat (map values ts)) (values (materialize schema rows)) /\
    (forall kinds,
        Forall (typed kinds) rows ->
        List.concat (map values ts) = values (materialize schema rows)) /\
    List.concat (map index ts) = index (materialize schema rows) /\
    index (materialize schema rows) = seq 0 (List.length rows) /\
    (forall i d,
        nth_error ts i = Some d ->
        index d =
          seq (List.length (List.concat (map values (firstn i ts)))) (len d)).
Proof.
  intros HC.
  set (cols := AioHive.pd_Index schema).
  exists (tables_from cols 0 (paginate C rows)).
  destruct (read_all_chunks_pages schema (paginate C rows)
              (paged_server schema rows) hql C w
              eq_refl eq_refl eq_refl eq_refl) as [Hr Ho].
  pose proof (paginate_rows C rows HC) as Hrows.
  split; [exact Hr |]. split; [exact Ho |].
  split; [apply tables_from_columns |].
  rewrite tables_from_values, tables_from_index, Hrows.
  unfold materialize. cbn [pd_DataFrame values index].
  split; [| split; [| split; [| split]]].
  - apply (same_up_to_dtype_tables rows).
    + rewrite <- Hrows at 1. apply cells_of_rows.
    + apply (infer_dtypes_cells rows rows).
  - intros kinds Hk.
    rewrite (infer_dtypes_typed kinds rows Hk).
    rewrite (cells_of_typed kinds); [exact Hrows |].
    now rewrite Hrows.
  - reflexivity.
  - reflexivity.
  - intros i d H.
    exact (tables_from_nth cols (paginate C rows) 0 i d H).
Qed.

Lemma chunks_concat_up_to_dtypes_witness :
  exists ts,
    fst (read_all_chunks (client_of server5) "SELECT * FROM t" 2 world0) =
      inr true /\
    out (snd (read_all_chunks (client_of server5) "SELECT * FROM t" 2 world0)) =
      [] ++ ts /\
    Forall (fun d => columns d = ["a"; "b"]) ts /\
    Forall2 (Forall2 same_up_to_dtype)
            (List.concat (map values ts))
            [cell_row 1; cell_row 2; cell_row 3; cell_row 4; cell_row 5] /\
    (forall kinds,
        Forall (typed kinds)
               [cell_row 1; cell_row 2; cell_row 3; cell_row 4; cell_row 5] ->
        List.concat (map values ts) =
          [cell_row 1; cell_row 2; cell_row 3; cell_row 4; cell_row 5]) /\
    List.concat (map index ts) = [0; 1; 2; 3; 4] /\
    [0; 1; 2; 3; 4] = [0; 1; 2; 3; 4] /\
    (forall i d,
        nth_error ts i = Some d ->
        index d =
          seq (List.length (List.concat (map values (firstn i ts)))) (len d)).
Proof.
  apply (chunks_concat_up_to_dtypes schema_ab
           [cell_row 1; cell_row 2; cell_row 3; cell_row 4; cell_row 5]
           "SELECT * FROM t" 2 world0).
  lia.
Defined.

(** C2, as stated, fails: of four rows of one integer column, the last two
    NULL, read in chunks of two, the tables hold the integers 1 and 2 and
    two [None] (an int64 table, then an object table), while the full
    materialization holds the floats 1.0 and 2.0 and two NaN. *)
Lemma chunks_concat_differs_on_null :
  0 < 2 /\
  List.concat
    (map values
       (out (snd (read_all_chunks (client_of server_nulls)
                    "SELECT a FROM t" 2 world0)))) =
    [[CInt 1]; [CInt 2]; [CNone]; [CNone]] /\
  values (materialize [mkNfo "a"] rows_nulls) =
    [[CFloat (float_of_int 1)]; [CFloat (float_of_int 2)];
     [CFloat PrimFloat.nan]; [CFloat PrimFloat.nan]] /\
  List.concat
    (map values
       (out (snd (read_all_chunks (client_of server_nulls)
                    "SELECT a FROM t" 2 world0)))) <>
    values (materialize [mkNfo "a"] rows_nulls).
Proof.
  split; [lia |]. split; [reflexivity |]. split; [reflexivity |].
  intros H. vm_compute in H. discriminate H.
Qed.

(** The scenario of five rows in chunks of two: index ranges [0,1], [2,3]
    and [4], then the table of the empty page that ends the stream. *)
Example five_rows_in_chunks_of_two :
  map index
    (out (snd (read_all_chunks (client_of server5) "SELECT * FROM t" 2 world0)))
  = [[0; 1]; [2; 3]; [4]; []].
Proof. reflexivity. Qed.

(** The same read holds the very cells of the full materialization: no
    value is NULL, the first column holds integers and the second strings. *)
Example five_rows_same_cells :
  List.concat
    (map values
       (out (snd (read_all_chunks (client_of server5)
                    "SELECT * FROM t" 2 world0)))) =
    values (materialize schema_ab
              [cell_row 1; cell_row 2; cell_row 3; cell_row 4; cell_row 5]) /\
  Forall (typed [KInt; KStr])
         [cell_row 1; cell_row 2; cell_row 3; cell_row 4; cell_row 5].
Proof. split; [reflexivity | repeat constructor]. Qed.

(** * The blocking iterator *)

Lemma synced_iter_run (self : AioHive.t) (hql : string) (n : nat) (w : world) :
  SyncedHive.iter (SyncedHive.mk self) hql n w =
    bind (AioHive.iter self hql n)
         (consume_all (yield_if (fun d => negb (df_empty d)))) w.
Proof. reflexivity. Qed.

(** C4: what [SyncedHive.iter] yields is, in the same order, what the
    generator of [AioHive.iter] produces for a caller that keeps every
    table, without the tables for which [data.empty] holds; none of the
    tables it yields has zero rows, and every table with zero rows is left
    out; when the schema has a column, [data.empty] says exactly that the
    table has zero rows.  Both reads end the same way, by an exception or
    with the generator exhausted.  A query without matching rows yields no
    table. *)
Theorem synced_iter_skips_empty
    (self : AioHive.t) (hql : string) (n : nat) (w : world) :
  (exists ts,
      out (snd (read_all_chunks self hql n w)) = out w ++ ts /\
      out (snd (SyncedHive.iter (SyncedHive.mk self) hql n w)) =
        out w ++ filter (fun d => negb (df_empty d)) ts /\
      Forall (fun d => len d <> 0) (filter (fun d => negb (df_empty d)) ts) /\
      (forall d, In d ts -> len d = 0 ->
                 ~ In d (filter (fun d => negb (df_empty d)) ts)) /\
      (forall d, In d ts -> columns d <> [] ->
                 df_empty d = Nat.eqb (len d) 0)) /\
  fst (SyncedHive.iter (SyncedHive.mk self) hql n w) =
    fst (read_all_chunks self hql n w) /\
  fst (SyncedHive.iter (SyncedHive.mk self) hql n w) <> inr false /\
  (forall schema,
      SyncedHive.iter (SyncedHive.mk (client_of (paged_server schema []))) hql n w
      = (inr true,
         mkWorld (trace w ++ [EvCursor; EvExecute hql; EvGetSchema;
                              EvFetch n; EvCloseCoro])
                 (mkLocal 0 (Some (mkFrame (AioHive.pd_Index schema) [] [])))
                 (out w))).
Proof.
  split; [| split; [| split]].
  - rewrite synced_iter_run. unfold read_all_chunks, bind.
    destruct (AioHive.iter self hql n w) as [[e | g] w1] eqn:E.
    + exists []. simpl.
      assert (Hout : out w1 = out w).
      { rewrite iter_run in E. cbn zeta in E.
        destruct (srv_cursor _) as [e1 | []]; [now injection E as _ <- |].
        destruct (srv_execute _ hql) as [e1 | []]; [now injection E as _ <- |].
        destruct (srv_schema _) as [e1 | schema]; [now injection E as _ <- |].
        discriminate. }
      rewrite Hout, app_nil_r. repeat split; auto.
      intros d [].
    + destruct (iter_ok self hql n w g w1 E) as (schema & _ & -> & ->).
      set (srv := client_server (AioHive.cli self)).
      set (cols := AioHive.pd_Index schema).
      set (w1 := mkWorld _ _ _).
      set (os := srv_pages srv n).
      unfold consume_all. simpl AioHive.chunks.
      set (k := S (List.length (map (Cur.fetch_co n) os))).
      exists (tables_from cols 0 (firstn k (ok_prefix os))).
      destruct (consume_out cols n (mkCursor srv) (fun _ => true) os k
                  AioHive.Created w1 created_live (or_introl eq_refl))
        as (Ho & _ & _).
      destruct (consume_out cols n (mkCursor srv)
                  (fun d => negb (df_empty d)) os k
                  AioHive.Created w1 created_live (or_introl eq_refl))
        as (Ho' & _ & _).
      change (yield_if (fun _ => true)) with yield_ in Ho.
      rewrite filter_all in Ho.
      pose proof (tables_from_rows cols (firstn k (ok_prefix os)) 0) as Hrows.
      rewrite Forall_forall in Hrows.
      assert (Hkept : forall d,
                 In d (filter (fun d => negb (df_empty d))
                         (tables_from cols 0 (firstn k (ok_prefix os)))) ->
                 len d <> 0).
      { intros d Hd. apply filter_In in Hd. destruct Hd as [Hin Hne].
        rewrite <- (Hrows d Hin). unfold df_empty in Hne.
        apply negb_true_iff, orb_false_iff in Hne. destruct Hne as [Hi _].
        now apply Nat.eqb_neq in Hi. }
      split; [exact Ho |]. split; [exact Ho' |]. split; [| split].
      * apply Forall_forall. exact Hkept.
      * intros d _ Hz Hd. now apply (Hkept d Hd).
      * intros d Hin Hc. unfold df_empty. rewrite (Hrows d Hin).
        destruct (columns d) as [| c cs]; [now elim Hc |].
        simpl. now rewrite orb_false_r.
  - rewrite synced_iter_run. unfold read_all_chunks, bind.
    destruct (AioHive.iter self hql n w) as [[e | g] w1] eqn:E; [reflexivity |].
    destruct (iter_ok self hql n w g w1 E) as (schema & _ & -> & ->).
    unfold consume_all. simpl AioHive.chunks.
    change yield_ with (yield_if (fun _ => true)).
    rewrite !consume_result;
      try (rewrite length_map; auto with arith);
      try exact created_live; try (left; reflexivity).
    reflexivity.
  - rewrite synced_iter_run. unfold bind.
    destruct (AioHive.iter self hql n w) as [[e | g] w1] eqn:E; [discriminate |].
    destruct (iter_ok self hql n w g w1 E) as (schema & _ & -> & ->).
    unfold consume_all. simpl AioHive.chunks.
    rewrite consume_result;
      try (rewrite length_map; auto with arith);
      try exact created_live; try (left; reflexivity).
    destruct (first_error _); discriminate.
  - intros schema. rewrite synced_iter_run. unfold bind.
    rewrite iter_run. simpl.
    unfold consume_all, consume, bind. simpl.
    rewrite <- !app_assoc. reflexivity.
Qed.

(** * The template of [to_frame] *)

(** C10: the first table that [to_frame] produces, with or without rows,
    leaves its zero-row copy in [local.empty]; once set, [local.empty] is
    never changed by a later conversion; converting an empty or absent page
    builds the table from the template that [local.empty] holds, whatever
    that template is (its cells reindexed to the columns, its index moved
    by the offset), and does not read it for a page with rows; with the
    zero-row template of a read this gives the zero-row table and leaves
    [local.offset] as it was; so over a whole read the offset counts the
    rows of the pages so far and the index of each table starts where the
    rows of the tables before it end. *)
Theorem to_frame_template (cols : list string) (n : nat) :
  (forall p w,
      empty (loc w) = None ->
      exists data,
        fst (AioHive.to_frame cols (Cur.fetch_co n (inr p)) w) = inr data /\
        empty (loc (snd (AioHive.to_frame cols (Cur.fetch_co n (inr p)) w))) =
          Some (slice0_copy data) /\
        slice0_copy data = mkFrame cols [] []) /\
  (forall o w e,
      empty (loc w) = Some e ->
      empty (loc (snd (AioHive.to_frame cols (Cur.fetch_co n o) w))) = Some e) /\
  (forall p w e,
      page_truthy p = false ->
      empty (loc w) = Some e ->
      fst (AioHive.to_frame cols (Cur.fetch_co n (inr p)) w) =
        inr (index_iadd (pd_DataFrame (FFrame e) cols) (offset (loc w))) /\
      offset (loc (snd (AioHive.to_frame cols (Cur.fetch_co n (inr p)) w))) =
        offset (loc w) + List.length (values e)) /\
  (forall p w,
      page_truthy p = true ->
      fst (AioHive.to_frame cols (Cur.fetch_co n (inr p)) w) =
        inr (index_iadd (pd_DataFrame (FRows (page_rows p)) cols)
                        (offset (loc w)))) /\
  (forall p w,
      page_truthy p = false ->
      local_ok cols (loc w) ->
      fst (AioHive.to_frame cols (Cur.fetch_co n (inr p)) w) =
        inr (mkFrame cols [] []) /\
      offset (loc (snd (AioHive.to_frame cols (Cur.fetch_co n (inr p)) w))) =
        offset (loc w)) /\
  (forall self hql k w g w1,
      AioHive.iter self hql n w = (inr g, w1) ->
      let ps := firstn k (ok_prefix (srv_pages (client_server (AioHive.cli self)) n)) in
      let w2 := snd (consume k yield_ g w1) in
      exists ts,
        out w2 = out w1 ++ ts /\
        offset (loc w2) = List.length (rows_of ps) /\
        (ps <> [] -> empty (loc w2) = Some (mkFrame (AioHive.gen_columns g) [] [])) /\
        List.concat (map index ts) = seq 0 (List.length (rows_of ps)) /\
        (forall i d,
            nth_error ts i = Some d ->
            index d =
              seq (List.length (List.concat (map values (firstn i ts))))
                  (len d))).
Proof.
  split; [| split; [| split; [| split; [| split]]]].
  - intros p [tr [off em] o] H. simpl in H. subst em.
    destruct p as [[| r rs] |]; eexists; repeat split.
  - intros o [tr [off em] o'] e H. simpl in H. subst em.
    destruct o as [e0 | p]; reflexivity.
  - intros p [tr [off em] o] e Hp H. simpl in H. subst em.
    destruct p as [[| r rs] |]; try discriminate;
      (split; [reflexivity |]);
      unfold AioHive.to_frame, Cur.fetch_co, bind, emit, lift, ret,
        get_local, set_local, len, index_iadd;
      cbn [loc offset empty snd fst values pd_DataFrame page_or page_truthy];
      now rewrite length_map.
  - intros p [tr [off em] o] Hp.
    destruct p as [[| r rs] |]; try discriminate.
    destruct em; reflexivity.
  - intros p w Hp Hl. rewrite (to_frame_ok cols n p w Hl).
    assert (Hr : page_rows p = [])
      by (destruct p as [[| r rs] |]; [reflexivity | discriminate | reflexivity]).
    unfold chunk_frame. rewrite Hr. simpl. split; [reflexivity | lia].
  - intros self hql k w g w1 E.
    destruct (iter_ok self hql n w g w1 E) as (schema & _ & -> & ->).
    set (srv := client_server (AioHive.cli self)).
    set (w1 := mkWorld _ _ _). cbn zeta. simpl AioHive.gen_columns.
    destruct (consume_out (AioHive.pd_Index schema) n (mkCursor srv)
                (fun _ => true) (srv_pages srv n) k AioHive.Created w1
                created_live (or_introl eq_refl))
      as (Ho & Hoff & He).
    change (yield_if (fun _ => true)) with yield_ in Ho, Hoff, He.
    rewrite filter_all in Ho.
    exists (tables_from (AioHive.pd_Index schema) 0
              (firstn k (ok_prefix (srv_pages srv n)))).
    split; [exact Ho |]. split; [exact Hoff |]. split; [exact He |].
    split; [apply tables_from_index |].
    intros i d H.
    apply (tables_from_nth (AioHive.pd_Index schema) _ 0 i d H).
Qed.

(** An empty first page, an absent page in the middle: the template comes
    from the first table, the offset counts only the rows that came. *)
Example template_on_gaps :
  read_all_chunks (client_of server_gaps) "SELECT * FROM t" 2 world0 =
    (inr true,
     mkWorld [EvCursor; EvExecute "SELECT * FROM t"; EvGetSchema;
              EvFetch 2; EvFetch 2; EvFetch 2; EvFetch 2; EvFetch 2;
              EvCloseCoro]
             (mkLocal 3 (Some (mkFrame ["a"; "b"] [] [])))
             [mkFrame ["a"; "b"] [] [];
              mkFrame ["a"; "b"] [0; 1] [cell_row 1; cell_row 2];
              mkFrame ["a"; "b"] [] [];
              mkFrame ["a"; "b"] [2] [cell_row 3];
              mkFrame ["a"; "b"] [] []]).
Proof. reflexivity. Qed.

Example synced_iter_on_gaps :
  out (snd (SyncedHive.iter (SyncedHive.mk (client_of server_gaps))
              "SELECT * FROM t" 2 world0)) =
    [mkFrame ["a"; "b"] [0; 1] [cell_row 1; cell_row 2];
     mkFrame ["a"; "b"] [2] [cell_row 3]].
Proof. reflexivity. Qed.

Example host_of_metastore_uri :
  host_of_uri "thrift://meta:9083" = "meta" /\
  split "thrift://meta:9083" "://" = ["thrift"; "meta:9083"] /\
  host_of_uri "meta" = "meta".
Proof. repeat split; reflexivity. Qed.

(** * More on the constructor *)

Section ConstructorPaths.

Variable env : Env.

(** X1: a call with a falsy [config], unless both arguments are [None], makes
    the client for [host] as given; the configuration is not read. *)
Theorem init_host_only (host config : pyval) (port : Z) (w : world) :
  truthy config = false ->
  host <> PNone \/ config <> PNone ->
  AioHive.__init__ env host config port w =
    (inr (AioHive.mk (mkClient host port (net env host port))),
     mkWorld (trace w ++ [EvClient host port]) (loc w) (out w)).
Proof.
  intros Hc Hn. unfold AioHive.__init__.
  assert (E : (is_None host && is_None config) || truthy (py_and config host) = false).
  { destruct ((is_None host && is_None config) || truthy (py_and config host))
      eqn:E; [| reflexivity].
    apply init_check in E. destruct E as [[-> ->] | [_ Hc']].
    - destruct Hn as [Hn | Hn]; now elim Hn.
    - congruence. }
  rewrite E, Hc. reflexivity.
Qed.

(** X2: every constructor call either raises and leaves the world as it was,
    or creates exactly one client, for the port given, as the only thing
    it does. *)
Theorem init_raises_or_creates_one_client
    (host config : pyval) (port : Z) (w : world) :
  (exists e, AioHive.__init__ env host config port w = (inl e, w)) \/
  (exists h,
      AioHive.__init__ env host config port w =
        (inr (AioHive.mk (mkClient h port (net env h port))),
         mkWorld (trace w ++ [EvClient h port]) (loc w) (out w))).
Proof.
  unfold AioHive.__init__.
  destruct ((is_None host && is_None config) || truthy (py_and config host)).
  { left. eexists. reflexivity. }
  destruct (truthy config).
  - destruct (ET_parse env config) as [cfg |].
    + assert (H : (exists e, AioHive.scan_properties cfg w = (inl e, w)) \/
                  (exists s, AioHive.scan_properties cfg w = (inr (PStr s), w))).
      { induction cfg as [| res rest IH]; simpl.
        - left. eexists. reflexivity.
        - destruct (findtext_name res) as [nm |]; [| exact IH].
          destruct (String.eqb nm AioHive.metastore_key); [| exact IH].
          destruct (findtext_value res) as [uri |].
          + right. eexists. reflexivity.
          + left. eexists. reflexivity. }
      destruct H as [[e He] | [s Hs]].
      * left. exists e. unfold bind. now rewrite He.
      * right. exists (PStr s). unfold bind. now rewrite Hs.
    + left. eexists. reflexivity.
  - right. eexists. reflexivity.
Qed.

(** X3: the first property called hive.metastore.uris decides, whatever
    properties follow: when it has no value child the constructor raises
    the AttributeError of [None.split] and no client is created; when its
    value child has no text ([findtext] gives the empty string) nothing is
    raised and the client is created for the empty host name. *)
Theorem init_metastore_uri_missing_or_empty
    (host config : pyval) (port : Z) (w : world) (pre post : list property) :
  truthy host = false ->
  truthy config = true ->
  Forall (fun res => findtext_name res <> Some AioHive.metastore_key) pre ->
  (ET_parse env config =
     Some (pre ++ mkProperty (Some AioHive.metastore_key) None :: post) ->
   AioHive.__init__ env host config port w =
     (inl (AttributeError "'NoneType' object has no attribute 'split'"), w)) /\
  (ET_parse env config =
     Some (pre ++ mkProperty (Some AioHive.metastore_key) (Some "") :: post) ->
   AioHive.__init__ env host config port w =
     (inr (AioHive.mk (mkClient (PStr "") port (net env (PStr "") port))),
      mkWorld (trace w ++ [EvClient (PStr "") port]) (loc w) (out w))).
Proof.
  intros Hh Hc Hpre. split; intros Hp; unfold AioHive.__init__;
    rewrite (init_check_falsy_host host config Hh Hc), Hc, Hp;
    unfold bind.
  - assert (E : AioHive.scan_properties
                  (pre ++ mkProperty (Some AioHive.metastore_key) None :: post) w
                = (inl (AttributeError "'NoneType' object has no attribute 'split'"), w)).
    { clear Hp. induction Hpre as [| res rest Hres _ IH]; simpl.
      - reflexivity.
      - destruct (findtext_name res) as [nm |] eqn:En; [| exact IH].
        destruct (String.eqb nm AioHive.metastore_key) eqn:E; [| exact IH].
        apply String.eqb_eq in E. subst nm. now elim Hres. }
    now rewrite E.
  - rewrite (scan_properties_found pre post "" w Hpre). reflexivity.
Qed.

End ConstructorPaths.

(** * The host of a metastore uri *)

Lemma append_snoc (acc : string) (c : ascii) (s : string) :
  ((acc ++ String c "") ++ s)%string = (acc ++ String c s)%string.
Proof. induction acc as [| a acc IH]; simpl; [reflexivity | now rewrite IH]. Qed.

Lemma append_empty_r (s : string) : (s ++ "")%string = s.
Proof. induction s as [| a s IH]; simpl; [reflexivity | now rewrite IH]. Qed.

Lemma has_char_append (c : ascii) (a b : string) :
  has_char c (a ++ b)%string = has_char c a || has_char c b.
Proof.
  induction a as [| x a IH]; simpl; [reflexivity |].
  now rewrite IH, orb_assoc.
Qed.

Lemma prefix_empty (s : string) : String.prefix "" s = true.
Proof. destruct s; reflexivity. Qed.

Lemma prefix_other_char (c : ascii) (sep' s : string) :
  Ascii.eqb c ":" = false ->
  String.prefix (String ":" sep') (String c s) = false.
Proof.
  intros H.
  change (String.prefix (String ":" sep') (String c s))
    with (if ascii_dec ":" c then String.prefix sep' s else false).
  destruct (ascii_dec ":" c) as [E | E]; [| reflexivity].
  subst c. discriminate.
Qed.

(** Without a colon in [s] there is nothing to split at. *)
Lemma split_go_no_colon (sep' : string) (s : string) :
  forall acc,
    has_char ":" s = false ->
    split_go (String ":" sep') 0 acc s = [(acc ++ s)%string].
Proof.
  induction s as [| c s IH]; intros acc H.
  - simpl. now rewrite append_empty_r.
  - simpl in H. apply orb_false_iff in H. destruct H as [Hc Hs].
    cbn [split_go]. rewrite (prefix_other_char c sep' s Hc).
    rewrite (IH _ Hs). now rewrite append_snoc.
Qed.

(** Splitting at [":"]: the first piece ends at the first colon. *)
Lemma split_colon_head (host rest : string) :
  forall acc,
    has_char ":" host = false ->
    split_go ":" 0 acc (host ++ String ":" rest)%string =
      (acc ++ host)%string :: split_go ":" 0 "" rest.
Proof.
  induction host as [| c host IH]; intros acc H.
  - simpl. rewrite prefix_empty, append_empty_r. reflexivity.
  - simpl in H. apply orb_false_iff in H. destruct H as [Hc Hs].
    change (String c host ++ String ":" rest)%string
      with (String c (host ++ String ":" rest)%string).
    cbn [split_go]. rewrite (prefix_other_char c "" _ Hc).
    rewrite (IH _ Hs). now rewrite append_snoc.
Qed.

(** In [host:port] there is no ["://"] unless the port begins with two
    slashes. *)
Lemma split_scheme_absent (host port : string) :
  forall acc,
    has_char ":" host = false ->
    has_char ":" port = false ->
    String.prefix "//" port = false ->
    split_go "://" 0 acc (host ++ String ":" port)%string =
      [(acc ++ host ++ String ":" port)%string].
Proof.
  induction host as [| c host IH]; intros acc Hh Hp Hpre.
  - change ("" ++ String ":" port)%string with (String ":" port).
    cbn [split_go].
    assert (E : String.prefix "://" (String ":" port) = false).
    { simpl. destruct port as [| b port]; [reflexivity |]. exact Hpre. }
    rewrite E, (split_go_no_colon "//" port _ Hp). now rewrite append_snoc.
  - simpl in Hh. apply orb_false_iff in Hh. destruct Hh as [Hc Hs].
    change (String c host ++ String ":" port)%string
      with (String c (host ++ String ":" port)%string).
    cbn [split_go]. rewrite (prefix_other_char c "//" _ Hc).
    rewrite (IH _ Hs Hp Hpre). now rewrite append_snoc.
Qed.

Lemma prefix_cons (a : ascii) (s1 : string) (b : ascii) (s2 : string) :
  String.prefix (String a s1) (String b s2) =
    if ascii_dec a b then String.prefix s1 s2 else false.
Proof. reflexivity. Qed.

Lemma split_go_cons (sep : string) (s : string) :
  forall skip acc, exists p ps, split_go sep skip acc s = p :: ps.
Proof.
  induction s as [| c s IH]; intros skip acc; cbn [split_go].
  - eauto.
  - destruct skip as [| k]; [| apply IH].
    destruct (String.prefix sep (String c s)); [eauto | apply IH].
Qed.

Lemma last_after_cons (p : string) (l : list string) :
  l <> [] -> last (p :: l) "" = last l "".
Proof. destruct l; [intros H; now elim H | reflexivity]. Qed.

(** After the last ["://"]: what stands before a separator does not reach
    the last piece.  [skip] characters of [pre] belong to a separator
    already seen. *)
Lemma split_scheme_last (rest : string) (pre : string) :
  forall skip acc,
    skip <= String.length pre ->
    last (split_go "://" skip acc (pre ++ "://" ++ rest)%string) "" =
      last (split_go "://" 0 "" rest) "".
Proof.
  induction pre as [| c pre IH]; intros skip acc Hskip.
  - assert (skip = 0) by (simpl in Hskip; lia). subst skip.
    change ("" ++ "://" ++ rest)%string with (String ":" (String "/" (String "/" rest))).
    cbn [split_go]. rewrite !prefix_cons. simpl prefix.
    rewrite prefix_empty. cbn [String.length Nat.sub].
    apply last_after_cons.
    destruct (split_go_cons "://" rest 0 "") as (p & ps & ->). discriminate.
  - change (String c pre ++ "://" ++ rest)%string
      with (String c (pre ++ "://" ++ rest)%string).
    cbn [split_go]. destruct skip as [| k].
    + destruct (String.prefix "://" (String c (pre ++ "://" ++ rest)%string))
        eqn:E.
      * cbn [String.length Nat.sub].
        assert (Hlen : 2 <= String.length pre).
        { rewrite prefix_cons in E.
          destruct (ascii_dec ":" c); [| discriminate].
          destruct pre as [| a pre].
          - simpl in E. discriminate.
          - change (String a pre ++ "://" ++ rest)%string
              with (String a (pre ++ "://" ++ rest)%string) in E.
            rewrite prefix_cons in E.
            destruct (ascii_dec "/" a); [| discriminate].
            destruct pre as [| b pre].
            + simpl in E. discriminate.
            + simpl. lia. }
        rewrite last_after_cons.
        -- apply IH. exact Hlen.
        -- destruct (split_go_cons "://" (pre ++ "://" ++ rest)%string 2 "")
             as (p & ps & ->). discriminate.
      * apply IH. lia.
    + apply IH. simpl in Hskip. lia.
Qed.

Lemma host_of_uri_host_port (pre host port : string) :
  has_char ":" host = false ->
  has_char ":" port = false ->
  String.prefix "//" port = false ->
  host_of_uri (pre ++ "://" ++ host ++ ":" ++ port)%string = host.
Proof.
  intros Hh Hp Hpre. unfold host_of_uri, split.
  rewrite (split_scheme_last _ pre 0 "") by lia.
  change (":" ++ port)%string with (String ":" port).
  rewrite (split_scheme_absent host port "" Hh Hp Hpre).
  cbn [last append].
  now rewrite (split_colon_head host port "" Hh).
Qed.

(** X4: the host is taken after the last ["://"] and before the next colon:
    from [pre://host:port] and from [pre://host], whatever [pre] is (a
    scheme, or other uris before this one), when the host holds no colon
    (and the port no colon and no two slashes in front); a name without
    any colon is taken as it is. *)
Theorem host_of_uri_scheme_host_port (pre host port : string) :
  has_char ":" host = false ->
  has_char ":" port = false ->
  String.prefix "//" port = false ->
  host_of_uri (pre ++ "://" ++ host ++ ":" ++ port)%string = host /\
  host_of_uri (pre ++ "://" ++ host)%string = host /\
  host_of_uri host = host.
Proof.
  intros Hh Hp Hpre. split; [| unfold host_of_uri, split; split].
  - now apply host_of_uri_host_port.
  - rewrite (split_scheme_last _ pre 0 "") by lia.
    rewrite (split_go_no_colon "//" host "" Hh).
    cbn [last append].
    now rewrite (split_go_no_colon "" host "" Hh).
  - rewrite (split_go_no_colon "//" host "" Hh).
    cbn [last append].
    now rewrite (split_go_no_colon "" host "" Hh).
Qed.

Lemma host_of_uri_scheme_host_port_witness :
  host_of_uri ("thrift://one:9083,thrift" ++ "://" ++ "meta.example.org"
                 ++ ":" ++ "9083")%string
    = "meta.example.org" /\
  host_of_uri ("thrift://one:9083,thrift" ++ "://" ++ "meta.example.org")%string
    = "meta.example.org" /\
  host_of_uri "meta.example.org" = "meta.example.org".
Proof.
  apply (host_of_uri_scheme_host_port "thrift://one:9083,thrift"
           "meta.example.org" "9083");
    reflexivity.
Defined.

Lemma split_colon_pieces (s : string) :
  forall acc,
    has_char ":" acc = false ->
    Forall (fun piece => has_char ":" piece = false) (split_go ":" 0 acc s).
Proof.
  induction s as [| c s IH]; intros acc Hacc.
  - simpl. constructor; [exact Hacc | constructor].
  - cbn [split_go]. destruct (Ascii.eqb c ":") eqn:Hc.
    + apply Ascii.eqb_eq in Hc. subst c.
      assert (E : String.prefix ":" (String ":" s) = true)
        by (simpl; apply prefix_empty).
      rewrite E. constructor; [exact Hacc |]. simpl. now apply IH.
    + rewrite (prefix_other_char c "" s Hc). apply IH.
      rewrite has_char_append, Hacc. simpl. now rewrite Hc.
Qed.

(** X5: whatever the uri, the host taken from it holds no colon. *)
Theorem host_of_uri_no_colon (uri : string) :
  has_char ":" (host_of_uri uri) = false.
Proof.
  unfold host_of_uri, split.
  pose proof (split_colon_pieces (last (split_go "://" 0 "" uri) "") ""
                eq_refl) as H.
  destruct (split_go ":" 0 "" (last (split_go "://" 0 "" uri) "")) as [| p ps].
  - reflexivity.
  - simpl. now inversion H.
Qed.

(** X6: a configuration whose first metastore property reads
    [scheme://host:port] (or a list of such uris, [host] being in the last)
    gives the client of [host]. *)
Theorem init_host_from_metastore_uri
    (env : Env) (arg config : pyval) (port : Z) (w : world)
    (pre post : list property) (scheme host uriport : string) :
  truthy arg = false ->
  truthy config = true ->
  ET_parse env config =
    Some (pre ++ mkProperty (Some AioHive.metastore_key)
                   (Some (scheme ++ "://" ++ host ++ ":" ++ uriport)%string)
              :: post) ->
  Forall (fun res => findtext_name res <> Some AioHive.metastore_key) pre ->
  has_char ":" host = false ->
  has_char ":" uriport = false ->
  String.prefix "//" uriport = false ->
  AioHive.__init__ env arg config port w =
    (inr (AioHive.mk (mkClient (PStr host) port (net env (PStr host) port))),
     mkWorld (trace w ++ [EvClient (PStr host) port]) (loc w) (out w)).
Proof.
  intros Ha Hc Hp Hpre Hh Hu Hpre2. unfold AioHive.__init__.
  rewrite (init_check_falsy_host arg config Ha Hc), Hc, Hp.
  unfold bind. rewrite (scan_properties_found pre post _ w Hpre).
  rewrite (host_of_uri_host_port scheme host uriport Hh Hu Hpre2).
  reflexivity.
Qed.

(** * Any use of the generator *)

Lemma to_frame_trace (cols : list string) (n : nat) (o : exn + page) (w : world) :
  trace (snd (AioHive.to_frame cols (Cur.fetch_co n o) w)) =
    trace w ++ [EvFetch n].
Proof.
  destruct o as [e | p]; [reflexivity |].
  destruct w as [tr [off [t |]] ou]; reflexivity.
Qed.

Section AnyConsumer.

Variables (cols : list string) (n : nat) (cur : Cursor).

Local Abbreviation gen st os :=
  (AioHive.mkClosing st (map (Cur.fetch_co n) os) cols cur).

(** Driving one coroutine and keeping its table, exceptions dropped:
    one page fetch, whatever comes of it. *)
Lemma drive_one (o : exn + page) (w : world) :
  exists w',
    suppress (bind (AioHive.to_frame cols (Cur.fetch_co n o)) yield_) w =
      (inr tt, w') /\
    trace w' = trace w ++ [EvFetch n].
Proof.
  pose proof (to_frame_trace cols n o w) as Ht.
  unfold suppress, bind.
  destruct (AioHive.to_frame cols (Cur.fetch_co n o) w) as [[e | d] w1];
    simpl in Ht; eexists; split; try reflexivity; exact Ht.
Qed.

(** A finished generator gives nothing and does nothing. *)
Lemma run_ops_finished (ops : list gen_op) (os : list (exn + page)) (w : world) :
  run_ops ops (gen AioHive.Finished os) w = (inr (gen AioHive.Finished os), w).
Proof.
  induction ops as [| [drive |] ops IH]; [reflexivity | exact IH | exact IH].
Qed.

Lemma count_cons (p : event -> bool) (e : event) (l : list event) :
  count p (e :: l) = (if p e then 1 else 0) + count p l.
Proof. unfold count. simpl. destruct (p e); reflexivity. Qed.

Lemma drop_nth_length {A} (i : nat) (l : list A) (a : A) :
  nth_error l i = Some a -> S (List.length (drop_nth i l)) = List.length l.
Proof.
  revert i. induction l as [| x l IH]; intros i H.
  - destruct i; discriminate.
  - destruct i as [| i]; simpl; [reflexivity |].
    simpl in H. now rewrite (IH i H).
Qed.

Lemma drop_nth_Forall {A} (P : A -> Prop) (i : nat) (l : list A) :
  Forall P l -> Forall P (drop_nth i l).
Proof.
  intros H. revert i. induction H as [| x l Hx Hl IH]; intros i.
  - destruct i; constructor.
  - destruct i as [| i]; simpl; [exact Hl |].
    constructor; [exact Hx | apply IH].
Qed.

Lemma run_uses_trace (us : list use) :
  forall os st held w,
    Forall (of_generator cols n) held ->
    exists evs g' held' w',
      run_uses us (gen st os) held w = (inr (g', held'), w') /\
      trace w' = trace w ++ evs /\
      Forall (fun e => e = EvFetch n \/ e = EvCloseCoro) evs /\
      count is_fetch evs <= count_use_drives us /\
      count is_fetch evs + List.length held' <= List.length held + List.length os /\
      count is_close_coro evs <= 1 /\
      (st = AioHive.Finished -> count is_close_coro evs = 0).
Proof.
  induction us as [| u us IH]; intros os st held w Hheld.
  - exists [], (gen st os), held, w. simpl. rewrite app_nil_r.
    repeat split; auto with arith.
  - destruct u as [| i |].
    + (* next *)
      assert (Hstop : forall st' w0,
                 st' = AioHive.Finished ->
                 exists evs g' held' w',
                   run_uses us (gen st' os) held w0 = (inr (g', held'), w') /\
                   trace w' = trace w0 ++ evs /\
                   Forall (fun e => e = EvFetch n \/ e = EvCloseCoro) evs /\
                   count is_fetch evs <= count_use_drives us /\
                   count is_fetch evs + List.length held'
                     <= List.length held + List.length os /\
                   count is_close_coro evs = 0).
      { intros st' w0 ->.
        destruct (IH os AioHive.Finished held w0 Hheld)
          as (evs & g' & held' & w' & Hr & Ht & Hev & Hf & Hl & _ & Hc).
        exists evs, g', held', w'. repeat split; auto. }
      destruct st.
      * destruct os as [| o os].
        -- destruct (Hstop AioHive.Finished
                       (mkWorld (trace w ++ [EvCloseCoro]) (loc w) (out w)) eq_refl)
             as (evs & g' & held' & w' & Hr & Ht & Hev & Hf & Hl & Hc).
           exists (EvCloseCoro :: evs), g', held', w'.
           split; [exact Hr |]. split; [rewrite Ht; simpl; now rewrite <- app_assoc |].
           split; [constructor; auto |].
           rewrite !count_cons. cbn [is_fetch is_close_coro Nat.add].
           cbn [List.length count_use_drives] in *.
           repeat split; try lia; discriminate.
        -- destruct (IH os AioHive.Suspended
                       (held ++ [AioHive.to_frame cols (Cur.fetch_co n o)]) w)
             as (evs & g' & held' & w' & Hr & Ht & Hev & Hf & Hl & Hc & _).
           { apply Forall_app. split; [exact Hheld |].
             constructor; [now exists o | constructor]. }
           exists evs, g', held', w'.
           split; [exact Hr |]. split; [exact Ht |]. split; [exact Hev |].
           rewrite length_app in Hl.
           cbn [List.length count_use_drives] in *.
           repeat split; try lia; discriminate.
      * destruct os as [| o os].
        -- destruct (Hstop AioHive.Finished
                       (mkWorld (trace w ++ [EvCloseCoro]) (loc w) (out w)) eq_refl)
             as (evs & g' & held' & w' & Hr & Ht & Hev & Hf & Hl & Hc).
           exists (EvCloseCoro :: evs), g', held', w'.
           split; [exact Hr |]. split; [rewrite Ht; simpl; now rewrite <- app_assoc |].
           split; [constructor; auto |].
           rewrite !count_cons. cbn [is_fetch is_close_coro Nat.add].
           cbn [List.length count_use_drives] in *.
           repeat split; try lia; discriminate.
        -- destruct (IH os AioHive.Suspended
                       (held ++ [AioHive.to_frame cols (Cur.fetch_co n o)]) w)
             as (evs & g' & held' & w' & Hr & Ht & Hev & Hf & Hl & Hc & _).
           { apply Forall_app. split; [exact Hheld |].
             constructor; [now exists o | constructor]. }
           exists evs, g', held', w'.
           split; [exact Hr |]. split; [exact Ht |]. split; [exact Hev |].
           rewrite length_app in Hl.
           cbn [List.length count_use_drives] in *.
           repeat split; try lia; discriminate.
      * destruct (Hstop AioHive.Finished w eq_refl)
          as (evs & g' & held' & w' & Hr & Ht & Hev & Hf & Hl & Hc).
        exists evs, g', held', w'.
        cbn [List.length count_use_drives] in *.
        repeat split; auto; lia.
    + (* drive *)
      cbn [run_uses count_use_drives].
      destruct (nth_error held i) as [c |] eqn:Hc.
      * assert (Hgen : of_generator cols n c).
        { rewrite Forall_forall in Hheld. apply Hheld.
          now apply nth_error_In with (n := i). }
        destruct Hgen as [o ->].
        destruct (drive_one o w) as (w1 & Hd & Ht1).
        destruct (IH os st (drop_nth i held) w1 (drop_nth_Forall _ i held Hheld))
          as (evs & g' & held' & w' & Hr & Ht & Hev & Hf & Hl & Hcc & Hfin).
        exists (EvFetch n :: evs), g', held', w'.
        split.
        { change (bind (suppress (bind (AioHive.to_frame cols (Cur.fetch_co n o))
                                       yield_))
                       (fun _ => run_uses us (gen st os) (drop_nth i held)) w
                  = (inr (g', held'), w')).
          unfold bind at 1. rewrite Hd. exact Hr. }
        split; [rewrite Ht, Ht1, <- app_assoc; reflexivity |].
        split; [constructor; auto |].
        pose proof (drop_nth_length i held _ Hc) as Hlen.
        rewrite !count_cons. cbn [is_fetch is_close_coro Nat.add].
        repeat split; try lia. exact Hfin.
      * destruct (IH os st held w Hheld)
          as (evs & g' & held' & w' & Hr & Ht & Hev & Hf & Hl & Hcc & Hfin).
        exists evs, g', held', w'. repeat split; auto.
    + (* close *)
      destruct st.
      * destruct (IH os AioHive.Finished held w Hheld)
          as (evs & g' & held' & w' & Hr & Ht & Hev & Hf & Hl & _ & Hc).
        exists evs, g', held', w'. cbn [count_use_drives].
        specialize (Hc eq_refl). repeat split; auto; try lia; discriminate.
      * destruct (IH os AioHive.Finished held
                    (mkWorld (trace w ++ [EvCloseCoro]) (loc w) (out w)) Hheld)
          as (evs & g' & held' & w' & Hr & Ht & Hev & Hf & Hl & _ & Hc).
        specialize (Hc eq_refl).
        exists (EvCloseCoro :: evs), g', held', w'.
        split; [exact Hr |]. split; [rewrite Ht; simpl; now rewrite <- app_assoc |].
        split; [constructor; auto |].
        rewrite !count_cons. cbn [is_fetch is_close_coro Nat.add].
        cbn [count_use_drives].
        repeat split; try lia; discriminate.
      * destruct (IH os AioHive.Finished held w Hheld)
          as (evs & g' & held' & w' & Hr & Ht & Hev & Hf & Hl & _ & Hc).
        exists evs, g', held', w'. cbn [count_use_drives].
        specialize (Hc eq_refl). repeat split; auto; lia.
Qed.

End AnyConsumer.

(** X8: whatever a caller does with the generator of a successful [iter]
    (taking items and holding their coroutines, driving the ones it holds
    at any later time, closing, in any order), nothing is raised to it by
    the generator, the only things that reach the trace are page fetches
    and the call [cur.close()] whose coroutine is dropped, that call is
    made at most once, and the page fetches are no more than the drives
    the caller sets out to do and no more than the pages there are. *)
Theorem generator_any_consumer
    (self : AioHive.t) (hql : string) (n : nat)
    (w : world) (g : AioHive.closing) (w1 : world) (us : list use) :
  AioHive.iter self hql n w = (inr g, w1) ->
  exists evs g' held w2,
    run_uses us g [] w1 = (inr (g', held), w2) /\
    trace w2 = trace w1 ++ evs /\
    Forall (fun e => e = EvFetch n \/ e = EvCloseCoro) evs /\
    count is_close_coro evs <= 1 /\
    count is_fetch evs <= count_use_drives us /\
    count is_fetch evs <=
      List.length (srv_pages (client_server (AioHive.cli self)) n).
Proof.
  intros E.
  destruct (iter_ok self hql n w g w1 E) as (schema & _ & -> & _).
  destruct (run_uses_trace (AioHive.pd_Index schema) n
              (mkCursor (client_server (AioHive.cli self))) us
              (srv_pages (client_server (AioHive.cli self)) n)
              AioHive.Created [] w1 (Forall_nil _))
    as (evs & g' & held & w2 & Hr & Ht & Hev & Hf & Hl & Hc & _).
  exists evs, g', held, w2. simpl in Hl. repeat split; auto. lia.
Qed.

Lemma generator_any_consumer_witness :
  exists evs g' held w2,
    run_uses [UseNext; UseNext; UseClose; UseDrive 1; UseNext; UseDrive 0]
      (AioHive.mkClosing AioHive.Created
         (map (Cur.fetch_co 2) (srv_pages server5 2))
         ["a"; "b"] (mkCursor server5))
      []
      (mkWorld [EvCursor; EvExecute "SELECT * FROM t"; EvGetSchema]
               (mkLocal 0 None) [])
      = (inr (g', held), w2) /\
    trace w2 = [EvCursor; EvExecute "SELECT * FROM t"; EvGetSchema] ++ evs /\
    Forall (fun e => e = EvFetch 2 \/ e = EvCloseCoro) evs /\
    count is_close_coro evs <= 1 /\
    count is_fetch evs <= 2 /\
    count is_fetch evs <= 4.
Proof.
  exact (generator_any_consumer (client_of server5) "SELECT * FROM t" 2 world0
           (AioHive.mkClosing AioHive.Created
              (map (Cur.fetch_co 2) (srv_pages server5 2))
              ["a"; "b"] (mkCursor server5))
           (mkWorld [EvCursor; EvExecute "SELECT * FROM t"; EvGetSchema]
                    (mkLocal 0 None) [])
           [UseNext; UseNext; UseClose; UseDrive 1; UseNext; UseDrive 0]
           eq_refl).
Defined.

(** A caller that takes two coroutines, closes the generator and only then
    drives them, in the order it got them: both page fetches come after
    the call [cur.close()]. *)
Example fetches_after_close :
  snd (run_uses [UseNext; UseNext; UseClose; UseDrive 0; UseDrive 0]
         (AioHive.mkClosing AioHive.Created
            (map (Cur.fetch_co 2) (srv_pages server5 2))
            ["a"; "b"] (mkCursor server5))
         []
         (mkWorld [EvCursor; EvExecute "SELECT * FROM t"; EvGetSchema]
                  (mkLocal 0 None) [])) =
    mkWorld [EvCursor; EvExecute "SELECT * FROM t"; EvGetSchema;
             EvCloseCoro; EvFetch 2; EvFetch 2]
            (mkLocal 4 (Some (mkFrame ["a"; "b"] [] [])))
            [mkFrame ["a"; "b"] [0; 1] [cell_row 1; cell_row 2];
             mkFrame ["a"; "b"] [2; 3] [cell_row 3; cell_row 4]].
Proof. reflexivity. Qed.

(** * Counting page fetches *)

Lemma count_repeat_same (n j : nat) :
  count is_fetch (repeat (EvFetch n) j) = j.
Proof.
  unfold count. induction j as [| j IH]; simpl; [reflexivity | now rewrite IH].
Qed.

Lemma tables_from_length (cols : list string) (ps : list page) (off : nat) :
  List.length (tables_from cols off ps) = List.length ps.
Proof.
  revert off. induction ps as [| p ps IH]; intros off; simpl;
    [reflexivity | now rewrite IH].
Qed.

Lemma ok_prefix_length (os : list (exn + page)) :
  List.length (ok_prefix os) <= List.length os.
Proof.
  induction os as [| [e | p] os IH]; simpl; auto with arith.
Qed.

Section FetchCount.

Variables (cols : list string) (n : nat) (cur : Cursor).
Variable keep : DataFrame -> bool.

Local Abbreviation gen st os :=
  (AioHive.mkClosing st (map (Cur.fetch_co n) os) cols cur).

(** One fetch per table of the loop, and one more for the fetch that
    raised. *)
Lemma for_chunks_fetches (os : list (exn + page)) :
  forall k st w,
    st <> AioHive.Finished -> local_ok cols (loc w) ->
    let r := for_chunks k (yield_if keep) (gen st os) w in
    let failed := match fst r with inl _ => 1 | inr _ => 0 end in
    count is_fetch (trace (snd r)) =
      count is_fetch (trace w) + List.length (firstn k (ok_prefix os)) + failed /\
    List.length (firstn k (ok_prefix os)) + failed <= k.
Proof.
  induction os as [| o os' IH]; intros k st w Hst Hl.
  - destruct k as [| k].
    + cbn zeta. cbn [for_chunks ret fst snd]. simpl. split; lia.
    + rewrite for_chunks_end by assumption. cbn zeta. cbn [fst snd trace].
      rewrite count_app. change (count is_fetch [EvCloseCoro]) with 0.
      simpl. split; lia.
  - destruct k as [| k].
    { cbn zeta. cbn [for_chunks ret fst snd]. simpl. split; lia. }
    destruct o as [e | p].
    + rewrite for_chunks_err by assumption. cbn zeta. cbn [fst snd trace].
      rewrite !count_app. change (count is_fetch [EvCloseCoro]) with 0.
      change (count is_fetch [EvFetch n]) with 1.
      simpl. split; lia.
    + rewrite for_chunks_ok by assumption.
      set (w1 := mkWorld _ _ _).
      destruct (IH k AioHive.Suspended w1 live_suspended) as [Hc Hk].
      { right. reflexivity. }
      cbn zeta in Hc, Hk |- *. rewrite Hc.
      set (f := match fst _ with inl _ => 1 | inr _ => 0 end) in *.
      subst w1. cbn [trace ok_prefix firstn List.length].
      rewrite count_app. change (count is_fetch [EvFetch n]) with 1.
      split; lia.
Qed.

Lemma consume_fetches (os : list (exn + page)) (k : nat)
    (st : AioHive.gen_status) (w : world) :
  st <> AioHive.Finished -> local_ok cols (loc w) ->
  let r := consume k (yield_if keep) (gen st os) w in
  let failed := match fst r with inl _ => 1 | inr _ => 0 end in
  trace (snd r) =
    trace w ++ repeat (EvFetch n)
                 (List.length (firstn k (ok_prefix os)) + failed)
            ++ (if entered k st then [EvCloseCoro] else []) /\
  List.length (firstn k (ok_prefix os)) + failed <= k.
Proof.
  intros Hst Hl. cbn zeta.
  destruct (consume_trace cols n cur keep os k st w Hst Hl) as (j & _ & _ & Ht).
  destruct (for_chunks_fetches os k st w Hst Hl) as [Hc Hk].
  cbn zeta in Hc, Hk.
  assert (Hcount : count is_fetch (trace (snd (consume k (yield_if keep) (gen st os) w)))
                   = count is_fetch (trace w) + j).
  { rewrite Ht, !count_app, count_repeat_same.
    destruct (entered k st);
      [change (count is_fetch [EvCloseCoro]) with 0
      | change (count is_fetch []) with 0]; lia. }
  assert (Hsame :
            count is_fetch (trace (snd (consume k (yield_if keep) (gen st os) w)))
            = count is_fetch (trace (snd (for_chunks k (yield_if keep) (gen st os) w)))
            /\ match fst (consume k (yield_if keep) (gen st os) w) with
               | inl _ => 1 | inr _ => 0 end
               = match fst (for_chunks k (yield_if keep) (gen st os) w) with
                 | inl _ => 1 | inr _ => 0 end).
  { rewrite consume_run.
    destruct (for_chunks k (yield_if keep) (gen st os) w) as [[e | [b g']] w'];
      simpl; [auto |].
    destruct (AioHive.status g'); cbn [fst snd trace]; rewrite ?count_app;
      change (count is_fetch [EvCloseCoro]) with 0; auto. }
  destruct Hsame as [Hs1 Hs2]. rewrite Hs2.
  split; [| exact Hk].
  rewrite Ht. replace j with
    (List.length (firstn k (ok_prefix os))
     + match fst (for_chunks k (yield_if keep) (gen st os) w) with
       | inl _ => 1 | inr _ => 0 end) by lia.
  reflexivity.
Qed.

End FetchCount.

(** X9: reading up to [k] items of a successful [iter] in order drives one
    page fetch for each table that comes out and one more for a fetch that
    raised, never more than [k]: pages the caller does not ask for are
    not fetched. *)
Theorem chunk_fetches_match_tables
    (self : AioHive.t) (hql : string) (n k : nat)
    (w : world) (g : AioHive.closing) (w1 : world) :
  AioHive.iter self hql n w = (inr g, w1) ->
  let r := consume k yield_ g w1 in
  let failed := match fst r with inl _ => 1 | inr _ => 0 end in
  exists evs ts,
    trace (snd r) = trace w1 ++ evs /\
    out (snd r) = out w1 ++ ts /\
    count is_fetch evs = List.length ts + failed /\
    count is_fetch evs <= k.
Proof.
  intros E.
  destruct (iter_ok self hql n w g w1 E) as (schema & _ & -> & ->).
  set (srv := client_server (AioHive.cli self)).
  set (w1 := mkWorld _ _ _).
  destruct (consume_fetches (AioHive.pd_Index schema) n (mkCursor srv)
              (fun _ => true) (srv_pages srv n) k AioHive.Created w1
              created_live (or_introl eq_refl))
    as [Ht Hk].
  destruct (consume_out (AioHive.pd_Index schema) n (mkCursor srv)
              (fun _ => true) (srv_pages srv n) k AioHive.Created w1
              created_live (or_introl eq_refl))
    as (Ho & _ & _).
  change (yield_if (fun _ => true)) with yield_ in Ht, Hk, Ho.
  cbn zeta in Ht, Hk, Ho |- *. rewrite filter_all in Ho.
  eexists. eexists. split; [exact Ht |]. split; [exact Ho |].
  rewrite tables_from_length, count_app, count_repeat_same.
  destruct (entered k AioHive.Created);
    [change (count is_fetch [EvCloseCoro]) with 0
    | change (count is_fetch []) with 0]; split; lia.
Qed.

Lemma chunk_fetches_match_tables_witness :
  exists evs ts,
    trace (snd (consume 2 yield_
                  (AioHive.mkClosing AioHive.Created
                     (map (Cur.fetch_co 2) (srv_pages server_fetch_error 2))
                     ["a"; "b"] (mkCursor server_fetch_error))
                  (mkWorld [EvCursor; EvExecute "SELECT * FROM t"; EvGetSchema]
                           (mkLocal 0 None) [])))
      = [EvCursor; EvExecute "SELECT * FROM t"; EvGetSchema] ++ evs /\
    out (snd (consume 2 yield_
                (AioHive.mkClosing AioHive.Created
                   (map (Cur.fetch_co 2) (srv_pages server_fetch_error 2))
                   ["a"; "b"] (mkCursor server_fetch_error))
                (mkWorld [EvCursor; EvExecute "SELECT * FROM t"; EvGetSchema]
                         (mkLocal 0 None) [])))
      = [] ++ ts /\
    count is_fetch evs = List.length ts + 1 /\
    count is_fetch evs <= 2.
Proof.
  exact (chunk_fetches_match_tables (client_of server_fetch_error)
           "SELECT * FROM t" 2 2 world0
           (AioHive.mkClosing AioHive.Created
              (map (Cur.fetch_co 2) (srv_pages server_fetch_error 2))
              ["a"; "b"] (mkCursor server_fetch_error))
           (mkWorld [EvCursor; EvExecute "SELECT * FROM t"; EvGetSchema]
                    (mkLocal 0 None) [])
           eq_refl).
Defined.

(** * More on the blocking wrapper *)

(** X10: [SyncedHive.iter] ends at the first page fetch that raises: that
    exception comes out, the tables of the pages before it that are not
    empty have been yielded, the pages after it are never fetched, and the
    generator is finalised (its undriven [cur.close()]). *)
Theorem synced_iter_stops_at_first_error
    (self : AioHive.t) (hql : string) (n : nat)
    (w : world) (g : AioHive.closing) (w1 : world) (e : exn) :
  AioHive.iter self hql n w = (inr g, w1) ->
  first_error (srv_pages (client_server (AioHive.cli self)) n) = Some e ->
  let pages := ok_prefix (srv_pages (client_server (AioHive.cli self)) n) in
  let r := SyncedHive.iter (SyncedHive.mk self) hql n w in
  fst r = inl e /\
  trace (snd r) =
    trace w1 ++ repeat (EvFetch n) (S (List.length pages)) ++ [EvCloseCoro] /\
  out (snd r) =
    out w ++ filter (fun d => negb (df_empty d))
               (tables_from (AioHive.gen_columns g) 0 pages).
Proof.
  intros E He. cbn zeta. rewrite synced_iter_run. unfold bind. rewrite E.
  destruct (iter_ok self hql n w g w1 E) as (schema & _ & -> & ->).
  set (srv := client_server (AioHive.cli self)) in *.
  set (os := srv_pages srv n) in *.
  set (w1 := mkWorld _ _ _).
  unfold consume_all. simpl AioHive.chunks. simpl AioHive.gen_columns.
  rewrite length_map.
  assert (Hk : List.length os < S (List.length os)) by auto with arith.
  pose proof (consume_result (AioHive.pd_Index schema) n (mkCursor srv)
                (fun d => negb (df_empty d)) os (S (List.length os))
                AioHive.Created w1 created_live (or_introl eq_refl) Hk) as Hr.
  rewrite He in Hr.
  destruct (consume_fetches (AioHive.pd_Index schema) n (mkCursor srv)
              (fun d => negb (df_empty d)) os (S (List.length os))
              AioHive.Created w1 created_live (or_introl eq_refl)) as [Ht _].
  destruct (consume_out (AioHive.pd_Index schema) n (mkCursor srv)
              (fun d => negb (df_empty d)) os (S (List.length os))
              AioHive.Created w1 created_live (or_introl eq_refl))
    as (Ho & _ & _).
  cbn zeta in Ht, Ho. rewrite Hr in Ht.
  rewrite firstn_all2 in Ht, Ho
    by (pose proof (ok_prefix_length os); lia).
  split; [exact Hr |]. split; [| exact Ho].
  rewrite Ht, Nat.add_1_r. reflexivity.
Qed.

Lemma synced_iter_stops_at_first_error_witness :
  fst (SyncedHive.iter (SyncedHive.mk (client_of server_fetch_error))
         "SELECT * FROM t" 2 world0) = inl (TransportError 7) /\
  trace (snd (SyncedHive.iter (SyncedHive.mk (client_of server_fetch_error))
                "SELECT * FROM t" 2 world0)) =
    [EvCursor; EvExecute "SELECT * FROM t"; EvGetSchema]
      ++ repeat (EvFetch 2) 2 ++ [EvCloseCoro] /\
  out (snd (SyncedHive.iter (SyncedHive.mk (client_of server_fetch_error))
              "SELECT * FROM t" 2 world0)) =
    [] ++ filter (fun d => negb (df_empty d))
            (tables_from ["a"; "b"] 0 [Some [cell_row 1; cell_row 2]]).
Proof.
  exact (synced_iter_stops_at_first_error (client_of server_fetch_error)
           "SELECT * FROM t" 2 world0
           (AioHive.mkClosing AioHive.Created
              (map (Cur.fetch_co 2) (srv_pages server_fetch_error 2))
              ["a"; "b"] (mkCursor server_fetch_error))
           (mkWorld [EvCursor; EvExecute "SELECT * FROM t"; EvGetSchema]
                    (mkLocal 0 None) [])
           (TransportError 7) eq_refl eq_refl).
Defined.

Lemma iter_failure_out (self : AioHive.t) (hql : string) (n : nat)
    (w : world) (e : exn) (w1 : world) :
  AioHive.iter self hql n w = (inl e, w1) ->
  loc w1 = loc w /\ out w1 = out w.
Proof.
  rewrite iter_run. cbn zeta.
  destruct (srv_cursor _) as [e1 | []]; [intros E; now injection E as _ <- |].
  destruct (srv_execute _ hql) as [e1 | []]; [intros E; now injection E as _ <- |].
  destruct (srv_schema _) as [e1 | schema]; [intros E; now injection E as _ <- |].
  discriminate.
Qed.

(** X11: when the construction of [iter] raises, it is the exception of the
    cursor request, of the execute or of the schema fetch; no page has
    been fetched, no close has been driven, [local] and the tables handed
    out are as before; and [SyncedHive.iter] ends the same way, having
    yielded nothing. *)
Theorem iter_construction_failure
    (self : AioHive.t) (hql : string) (n : nat) (w : world)
    (e : exn) (w1 : world) :
  AioHive.iter self hql n w = (inl e, w1) ->
  let srv := client_server (AioHive.cli self) in
  (srv_cursor srv = inl e \/ srv_execute srv hql = inl e \/
   srv_schema srv = inl e) /\
  (exists evs,
      trace w1 = trace w ++ evs /\
      count is_fetch evs = 0 /\ count is_close evs = 0) /\
  loc w1 = loc w /\ out w1 = out w /\
  SyncedHive.iter (SyncedHive.mk self) hql n w = (inl e, w1).
Proof.
  intros E. cbn zeta.
  assert (Hs : SyncedHive.iter (SyncedHive.mk self) hql n w = (inl e, w1)).
  { rewrite synced_iter_run. unfold bind. now rewrite E. }
  rewrite iter_run in E. cbn zeta in E.
  destruct (srv_cursor _) as [e1 | []].
  { injection E as -> <-. repeat split; auto.
    exists [EvCursor]. repeat split; reflexivity. }
  destruct (srv_execute _ hql) as [e1 | []].
  { injection E as -> <-. repeat split; auto.
    eexists. repeat split; reflexivity. }
  destruct (srv_schema _) as [e1 | schema]; [| discriminate].
  injection E as -> <-. repeat split; auto.
  eexists. repeat split; reflexivity.
Qed.

Lemma iter_construction_failure_witness :
  (srv_cursor server_failing = inl (TransportError 1) \/
   srv_execute server_failing "SELECT * FROM t" = inl (TransportError 1) \/
   srv_schema server_failing = inl (TransportError 1)) /\
  (exists evs,
      [EvCursor; EvExecute "SELECT * FROM t"; EvCloseCoro] = [] ++ evs /\
      count is_fetch evs = 0 /\ count is_close evs = 0) /\
  mkLocal 0 None = mkLocal 0 None /\ @nil DataFrame = [] /\
  SyncedHive.iter (SyncedHive.mk (client_of server_failing))
    "SELECT * FROM t" 2 world0 =
    (inl (TransportError 1),
     mkWorld [EvCursor; EvExecute "SELECT * FROM t"; EvCloseCoro]
             (mkLocal 0 None) []).
Proof.
  exact (iter_construction_failure (client_of server_failing)
           "SELECT * FROM t" 2 world0 (TransportError 1)
           (mkWorld [EvCursor; EvExecute "SELECT * FROM t"; EvCloseCoro]
                    (mkLocal 0 None) [])
           eq_refl).
Defined.

Lemma filter_nonempty_keeps_rows (cols : list string) (ps : list page) :
  cols <> [] ->
  forall off,
    List.concat (map values
                   (filter (fun d => negb (df_empty d)) (tables_from cols off ps)))
      = List.concat (map values (tables_from cols off ps)) /\
    List.concat (map index
                   (filter (fun d => negb (df_empty d)) (tables_from cols off ps)))
      = List.concat (map index (tables_from cols off ps)).
Proof.
  intros Hcols. induction ps as [| p ps IH]; intros off.
  - split; reflexivity.
  - cbn [tables_from filter].
    destruct (IH (off + List.length (page_rows p))) as [Hv Hi].
    destruct (negb (df_empty (chunk_frame cols off p))) eqn:Hd.
    + cbn [map List.concat]. now rewrite Hv, Hi.
    + cbn [map List.concat]. rewrite Hv, Hi.
      apply negb_false_iff in Hd. unfold df_empty, chunk_frame in Hd.
      cbn [index columns] in Hd. rewrite length_seq in Hd.
      apply orb_true_iff in Hd. destruct Hd as [Hd | Hd].
      * apply Nat.eqb_eq in Hd. apply length_zero_iff_nil in Hd.
        unfold chunk_frame. cbn [values index]. rewrite Hd. split; reflexivity.
      * apply Nat.eqb_eq, length_zero_iff_nil in Hd. now elim Hcols.
Qed.

(** X14: with a schema of at least one column, leaving out the empty tables
    loses nothing: the tables that [SyncedHive.iter] yields hold, one after
    the other, the same rows under the same row labels as the tables of the
    generator. *)
Theorem synced_iter_keeps_rows
    (self : AioHive.t) (hql : string) (n : nat) (w : world) (schema : list nfo) :
  srv_schema (client_server (AioHive.cli self)) = inr schema ->
  schema <> [] ->
  exists ts ys,
    out (snd (read_all_chunks self hql n w)) = out w ++ ts /\
    out (snd (SyncedHive.iter (SyncedHive.mk self) hql n w)) = out w ++ ys /\
    List.concat (map values ys) = List.concat (map values ts) /\
    List.concat (map index ys) = List.concat (map index ts).
Proof.
  intros Hs Hne. rewrite synced_iter_run. unfold read_all_chunks, bind.
  destruct (AioHive.iter self hql n w) as [[e | g] w1] eqn:E.
  - exists [], []. simpl.
    destruct (iter_failure_out self hql n w e w1 E) as [_ Ho].
    rewrite Ho, app_nil_r. auto.
  - destruct (iter_ok self hql n w g w1 E) as (schema' & Hs' & -> & ->).
    rewrite Hs in Hs'. injection Hs' as <-.
    set (srv := client_server (AioHive.cli self)) in *.
    set (cols := AioHive.pd_Index schema).
    set (w1 := mkWorld _ _ _).
    unfold consume_all. simpl AioHive.chunks.
    set (k := S (List.length (map (Cur.fetch_co n) (srv_pages srv n)))).
    destruct (consume_out cols n (mkCursor srv) (fun _ => true)
                (srv_pages srv n) k AioHive.Created w1
                created_live (or_introl eq_refl)) as (Ho & _ & _).
    destruct (consume_out cols n (mkCursor srv) (fun d => negb (df_empty d))
                (srv_pages srv n) k AioHive.Created w1
                created_live (or_introl eq_refl)) as (Ho' & _ & _).
    change (yield_if (fun _ => true)) with yield_ in Ho.
    rewrite filter_all in Ho.
    eexists. eexists. split; [exact Ho |]. split; [exact Ho' |].
    apply filter_nonempty_keeps_rows.
    subst cols. unfold AioHive.pd_Index.
    destruct schema; [now elim Hne | discriminate].
Qed.

Lemma synced_iter_keeps_rows_witness :
  exists ts ys,
    out (snd (read_all_chunks (client_of server_gaps) "SELECT * FROM t" 2 world0))
      = [] ++ ts /\
    out (snd (SyncedHive.iter (SyncedHive.mk (client_of server_gaps))
                "SELECT * FROM t" 2 world0)) = [] ++ ys /\
    List.concat (map values ys) = List.concat (map values ts) /\
    List.concat (map index ys) = List.concat (map index ts).
Proof.
  apply (synced_iter_keeps_rows (client_of server_gaps) "SELECT * FROM t" 2
           world0 schema_ab).
  - reflexivity.
  - discriminate.
Defined.

Lemma init_host_only_witness :
  AioHive.__init__ env_site PNone (PStr "") 10000 world0 =
    (inr (AioHive.mk (mkClient PNone 10000 server5)),
     mkWorld [EvClient PNone 10000] (mkLocal 0 None) []) /\
  AioHive.__init__ env_site (PStr "hive1") PNone 10000 world0 =
    (inr (AioHive.mk (mkClient (PStr "hive1") 10000 server5)),
     mkWorld [EvClient (PStr "hive1") 10000] (mkLocal 0 None) []).
Proof.
  split.
  - apply (init_host_only env_site PNone (PStr "") 10000 world0).
    + reflexivity.
    + right. discriminate.
  - apply (init_host_only env_site (PStr "hive1") PNone 10000 world0).
    + reflexivity.
    + left. discriminate.
Defined.

Lemma init_metastore_uri_missing_or_empty_witness :
  AioHive.__init__ env_novalue PNone (PStr "hive-site.xml") 10000 world0 =
    (inl (AttributeError "'NoneType' object has no attribute 'split'"), world0) /\
  AioHive.__init__ env_emptyvalue PNone (PStr "hive-site.xml") 10000 world0 =
    (inr (AioHive.mk (mkClient (PStr "") 10000 server5)),
     mkWorld [EvClient (PStr "") 10000] (mkLocal 0 None) []).
Proof.
  split.
  - refine (proj1 (init_metastore_uri_missing_or_empty env_novalue PNone
                     (PStr "hive-site.xml") 10000 world0
                     [mkProperty (Some "fs.defaultFS") (Some "hdfs://nn:8020")]
                     [mkProperty (Some "hive.metastore.uris")
                                 (Some "thrift://meta:9083")]
                     eq_refl eq_refl _) eq_refl).
    repeat constructor. simpl. discriminate.
  - refine (proj2 (init_metastore_uri_missing_or_empty env_emptyvalue PNone
                     (PStr "hive-site.xml") 10000 world0
                     [mkProperty (Some "fs.defaultFS") (Some "hdfs://nn:8020")]
                     []
                     eq_refl eq_refl _) eq_refl).
    repeat constructor. simpl. discriminate.
Defined.

Lemma init_host_from_metastore_uri_witness :
  AioHive.__init__ env_site PNone (PStr "hive-site.xml") 10000 world0 =
    (inr (AioHive.mk (mkClient (PStr "meta") 10000 server5)),
     mkWorld [EvClient (PStr "meta") 10000] (mkLocal 0 None) []).
Proof.
  apply (init_host_from_metastore_uri env_site PNone (PStr "hive-site.xml")
           10000 world0
           [mkProperty (Some "fs.defaultFS") (Some "hdfs://nn:8020")] []
           "thrift" "meta" "9083").
  - reflexivity.
  - reflexivity.
  - reflexivity.
  - repeat constructor. simpl. discriminate.
  - reflexivity.
  - reflexivity.
  - reflexivity.
Defined.

(** * What [execute] and [fetch] ask of the server *)

(** X12: [execute] never asks for the schema or for a page; [fetch] asks for
    the schema exactly when the cursor and the execute succeeded, and for a
    page, once, exactly when the schema fetch succeeded too. *)
Theorem execute_fetch_requests
    (self : AioHive.t) (hql : string) (n : nat) (w : world) :
  let srv := client_server (AioHive.cli self) in
  (exists evs,
      trace (snd (AioHive.execute self hql w)) = trace w ++ evs /\
      count is_schema evs = 0 /\ count is_fetch evs = 0) /\
  (exists evs,
      trace (snd (AioHive.fetch self hql n w)) = trace w ++ evs /\
      count is_schema evs =
        match srv_cursor srv, srv_execute srv hql with
        | inr _, inr _ => 1
        | _, _ => 0
        end /\
      count is_fetch evs =
        match srv_cursor srv, srv_execute srv hql, srv_schema srv with
        | inr _, inr _, inr _ => 1
        | _, _, _ => 0
        end).
Proof.
  intros srv. split.
  - rewrite execute_run. fold srv.
    destruct (srv_cursor srv) as [e | []]; eexists;
      (split; [reflexivity | split; reflexivity]).
  - rewrite fetch_run. fold srv. unfold fetch_events.
    destruct (srv_cursor srv) as [e | []].
    { eexists. split; [reflexivity | split; reflexivity]. }
    destruct (srv_execute srv hql) as [e | []].
    { eexists. split; [reflexivity | split; reflexivity]. }
    destruct (srv_schema srv) as [e | schema];
      eexists; (split; [reflexivity | split; reflexivity]).
Qed.

(** * Carrying on after a page fetch that raised *)

Section CarryOn.

Variables (cols : list string) (n : nat) (cur : Cursor).

Local Abbreviation gen st os :=
  (AioHive.mkClosing st (map (Cur.fetch_co n) os) cols cur).

Lemma run_ops_drive_ok (ops : list gen_op) (st : AioHive.gen_status)
    (p : page) (os : list (exn + page)) (w : world) :
  st <> AioHive.Finished ->
  local_ok cols (loc w) ->
  run_ops (OpNext true :: ops) (gen st (inr p :: os)) w =
    run_ops ops (gen AioHive.Suspended os)
      (mkWorld (trace w ++ [EvFetch n])
               (mkLocal (offset (loc w) + List.length (page_rows p))
                        (Some (mkFrame cols [] [])))
               (out w ++ [chunk_frame cols (offset (loc w)) p])).
Proof.
  intros Hst Hl.
  assert (E : run_ops (OpNext true :: ops) (gen st (inr p :: os)) w =
              bind (suppress (bind (AioHive.to_frame cols (Cur.fetch_co n (inr p)))
                                   yield_))
                   (fun _ => run_ops ops (gen AioHive.Suspended os)) w).
  { destruct st; [reflexivity | reflexivity | now elim Hst]. }
  rewrite E. unfold bind at 1, suppress, bind at 1.
  rewrite (to_frame_ok cols n p w Hl). reflexivity.
Qed.

Lemma run_ops_drive_err (ops : list gen_op) (st : AioHive.gen_status)
    (e : exn) (os : list (exn + page)) (w : world) :
  st <> AioHive.Finished ->
  run_ops (OpNext true :: ops) (gen st (inl e :: os)) w =
    run_ops ops (gen AioHive.Suspended os)
      (mkWorld (trace w ++ [EvFetch n]) (loc w) (out w)).
Proof.
  intros Hst. destruct st; [reflexivity | reflexivity | now elim Hst].
Qed.

Lemma run_ops_drive_end (ops : list gen_op) (st : AioHive.gen_status) (w : world) :
  st <> AioHive.Finished ->
  run_ops (OpNext true :: ops) (gen st []) w =
    (inr (gen AioHive.Finished []),
     mkWorld (trace w ++ [EvCloseCoro]) (loc w) (out w)).
Proof.
  intros Hst.
  assert (E : run_ops (OpNext true :: ops) (gen st []) w =
              run_ops ops (gen AioHive.Finished [])
                (mkWorld (trace w ++ [EvCloseCoro]) (loc w) (out w))).
  { destruct st; [reflexivity | reflexivity | now elim Hst]. }
  rewrite E. apply run_ops_finished.
Qed.

(** The tables of a caller that drives [k] items one after the other and
    carries on when one raises. *)
Lemma run_ops_carry_on (os : list (exn + page)) :
  forall k st w,
    st <> AioHive.Finished -> local_ok cols (loc w) ->
    out (snd (run_ops (repeat (OpNext true) k) (gen st os) w)) =
      out w ++ tables_from cols (offset (loc w)) (successes (firstn k os)).
Proof.
  induction os as [| o os IH]; intros k st w Hst Hl.
  - destruct k as [| k]; cbn [repeat].
    + simpl. now rewrite app_nil_r.
    + rewrite run_ops_drive_end by assumption. simpl. now rewrite app_nil_r.
  - destruct k as [| k]; cbn [repeat].
    { simpl. now rewrite app_nil_r. }
    destruct o as [e | p].
    + rewrite run_ops_drive_err by assumption.
      rewrite IH; [reflexivity | discriminate | exact Hl].
    + rewrite run_ops_drive_ok by assumption.
      rewrite IH; [| discriminate | right; reflexivity].
      cbn [firstn successes tables_from out loc offset].
      now rewrite <- app_assoc.
Qed.

End CarryOn.

(** X13: a caller that drives the items of a successful [iter] one after the
    other and carries on when a page fetch raises gets the tables of the
    pages that arrived, and their row labels still run 0, 1, ... without a
    gap: a fetch that raises moves nothing. *)
Theorem index_contiguous_after_failed_fetch
    (self : AioHive.t) (hql : string) (n k : nat)
    (w : world) (g : AioHive.closing) (w1 : world) :
  AioHive.iter self hql n w = (inr g, w1) ->
  let arrived :=
    successes (firstn k (srv_pages (client_server (AioHive.cli self)) n)) in
  exists ts,
    out (snd (run_ops (repeat (OpNext true) k) g w1)) = out w1 ++ ts /\
    List.concat (map values ts) = cells_of arrived /\
    List.concat (map index ts) = seq 0 (List.length (rows_of arrived)).
Proof.
  intros E. cbn zeta.
  destruct (iter_ok self hql n w g w1 E) as (schema & _ & -> & ->).
  eexists. split.
  - apply (run_ops_carry_on (AioHive.pd_Index schema) n); [discriminate |].
    left. reflexivity.
  - cbn [loc offset]. split.
    + apply tables_from_values.
    + apply tables_from_index.
Qed.

Lemma index_contiguous_after_failed_fetch_witness :
  exists ts,
    out (snd (run_ops (repeat (OpNext true) 3)
                (AioHive.mkClosing AioHive.Created
                   (map (Cur.fetch_co 2) (srv_pages server_fetch_error 2))
                   ["a"; "b"] (mkCursor server_fetch_error))
                (mkWorld [EvCursor; EvExecute "SELECT * FROM t"; EvGetSchema]
                         (mkLocal 0 None) [])))
      = [] ++ ts /\
    List.concat (map values ts) = [cell_row 1; cell_row 2; cell_row 3] /\
    List.concat (map index ts) = [0; 1; 2].
Proof.
  exact (index_contiguous_after_failed_fetch (client_of server_fetch_error)
           "SELECT * FROM t" 2 3 world0
           (AioHive.mkClosing AioHive.Created
              (map (Cur.fetch_co 2) (srv_pages server_fetch_error 2))
              ["a"; "b"] (mkCursor server_fetch_error))
           (mkWorld [EvCursor; EvExecute "SELECT * FROM t"; EvGetSchema]
                    (mkLocal 0 None) [])
           eq_refl).
Defined.
